(** * GitHub Activity Viewer: the commit aggregation and its setup phase

    A shallow embedding of [GitHubActivityViewer] (src/src/components/input.tsx):
    the two asynchronous handlers [fetchReposAndYears] and [fetchCommits], the
    helper [fetchWithAuth] and the summary that the chart renders.

    The React state of the component is a record that the handlers pass along;
    every [await] is a call to an oracle of the environment, which sees the
    requests issued so far, so that a server may answer the same URL
    differently over time.  Rejected promises and thrown errors are values of
    [Thrown]; [try]/[catch] is a match on them. *)

From Stdlib Require Import ZArith Ascii String List Lia Bool.
From stdpp Require Import base list strings pretty.
From Equations Require Import Equations.

Open Scope Z_scope.

(** ** Data model *)

(** [interface Repo] *)
Record Repo := mkRepo {
  id : Z;
  name : string;
  html_url : string
}.

(** [interface CommitData] *)
Record CommitData := mkCommitData {
  month : string;
  commits : Z
}.

(** One item of the commit listing; the only field the code reads is
    [commit.commit.author.date]. *)
Record Commit := mkCommit {
  author_date : string
}.

(** The profile of [GET /users/{username}]; the code reads [created_at]. *)
Record UserData := mkUserData {
  created_at : string
}.

(** What a [throw] or a rejected promise carries: an [Error] object with its
    message, or a value that is not an instance of [Error]. *)
Inductive Thrown :=
| ErrorObj (message : string)
| NonError.

(** The three URLs the component fetches.  [since] and [until] are the time
    values (milliseconds since the epoch) whose [toISOString] the URL holds:
    the ISO string has millisecond precision, so that reading it back with
    [new Date] gives the same time value. *)
Inductive Request :=
| GetUser (username : string)
| GetRepos (username : string) (per_page : nat)
| GetCommits (username repo : string) (since until : Z) (per_page page : nat).

(** The outcome of [fetch]: the promise rejects, or it resolves to a response
    with a status and a body that [res.json()] parses or not.  A body that
    parses is taken to have the shape of its endpoint. *)
Inductive Fetched (B : Type) :=
| Rejected (e : Thrown)
| Responded (status : Z) (body : Thrown + B).
Arguments Rejected {B} e.
Arguments Responded {B} status body.

(** [res.ok] *)
Definition ok (status : Z) : bool := (200 <=? status) && (status <=? 299).

Inductive LogLine :=
| ConsoleError (label : string) (e : Thrown)
| ConsoleWarn (text : string).

(** ** The environment: the [Date] API of the runtime, the clock and the
    GitHub REST API *)

Class Env := mkEnv {
  (** [new Date(year, monthIndex, day, hours, minutes, seconds)] in local
      time; [None] is an Invalid Date *)
  dateLocal : Z → Z → Z → Z → Z → Z → option Z;
  (** [new Date(string)] *)
  dateParse : string → option Z;
  (** [getFullYear()] and [getMonth()] of a valid date, in local time *)
  getFullYear : Z → Z;
  getMonth : Z → nat;
  (** [toLocaleString("default", { month: "short" })] *)
  monthShort : option Z → string;
  (** [new Date()], after the given requests *)
  clock : list Request → Z;
  (** the answers of the API to a request, after the given requests *)
  httpUser : list Request → Request → Fetched UserData;
  httpRepos : list Request → Request → Fetched (list Repo);
  httpCommits : list Request → Request → Fetched (list Commit)
}.

(** ** A reference runtime: the proleptic Gregorian calendar in UTC *)

Module Utc.

Definition msPerDay : Z := 86400000.
Definition maxTime : Z := 8640000000000000.

(** Days since 1970-01-01 of the civil date [y]-[m]-[d], [m] in 1..12. *)
Definition daysFromCivil (y m d : Z) : Z :=
  let y := if m <=? 2 then y - 1 else y in
  let era := y / 400 in
  let yoe := y - era * 400 in
  let mp := (m + 9) mod 12 in
  let doy := (153 * mp + 2) / 5 + d - 1 in
  let doe := yoe * 365 + yoe / 4 - yoe / 100 + doy in
  era * 146097 + doe - 719468.

(** The civil date (year, month in 1..12, day) of a day number. *)
Definition civilFromDays (z : Z) : Z * Z * Z :=
  let z := z + 719468 in
  let era := z / 146097 in
  let doe := z - era * 146097 in
  let yoe := (doe - doe / 1460 + doe / 36524 - doe / 146096) / 365 in
  let doy := doe - (365 * yoe + yoe / 4 - yoe / 100) in
  let mp := (5 * doy + 2) / 153 in
  let d := doy - (153 * mp + 2) / 5 + 1 in
  let m := if mp <? 10 then mp + 3 else mp - 9 in
  (yoe + era * 400 + (if m <=? 2 then 1 else 0), m, d).

Definition timeValue (tv : Z) : option Z :=
  if (- maxTime <=? tv) && (tv <=? maxTime) then Some tv else None.

(** Years 0..99 stand for 1900..1999, as in [Date]'s constructor. *)
Definition dateLocal (year monthIndex day hours minutes seconds : Z) : option Z :=
  let year := if (0 <=? year) && (year <=? 99) then 1900 + year else year in
  let y := year + monthIndex / 12 in
  let m := monthIndex mod 12 + 1 in
  timeValue ((daysFromCivil y m 1 + (day - 1)) * msPerDay
             + hours * 3600000 + minutes * 60000 + seconds * 1000).

Definition getFullYear (tv : Z) : Z :=
  let '(y, _, _) := civilFromDays (tv / msPerDay) in y.

Definition getMonth (tv : Z) : nat :=
  let '(_, m, _) := civilFromDays (tv / msPerDay) in Z.to_nat (m - 1).

Definition digit (a : Ascii.ascii) : option Z :=
  let n := Z.of_nat (nat_of_ascii a) in
  if (48 <=? n) && (n <=? 57) then Some (n - 48) else None.

Fixpoint number (acc : Z) (s : string) : option Z :=
  match s with
  | EmptyString => Some acc
  | String a s' => d ← digit a; number (10 * acc + d) s'
  end.

Definition field (s : string) (start len : nat) : option Z :=
  number 0 (substring start len s).

Definition separator (s : string) (i : nat) (a : Ascii.ascii) : bool :=
  match String.get i s with
  | Some b => bool_decide (a = b)
  | None => false
  end.

(** The timestamps of the API: [YYYY-MM-DDTHH:MM:SSZ]. *)
Definition dateParse (s : string) : option Z :=
  if (String.length s =? 20)%nat
     && separator s 4 "-" && separator s 7 "-" && separator s 10 "T"
     && separator s 13 ":" && separator s 16 ":" && separator s 19 "Z"
  then
    y ← field s 0 4; mo ← field s 5 2; d ← field s 8 2;
    h ← field s 11 2; mi ← field s 14 2; se ← field s 17 2;
    if (1 <=? mo) && (mo <=? 12) && (1 <=? d) && (d <=? 31)
       && (h <=? 23) && (mi <=? 59) && (se <=? 59)
    then timeValue ((daysFromCivil y mo 1 + (d - 1)) * msPerDay
                    + h * 3600000 + mi * 60000 + se * 1000)
    else None
  else None.

Definition labels : list string :=
  ["Jan"; "Feb"; "Mar"; "Apr"; "May"; "Jun";
   "Jul"; "Aug"; "Sep"; "Oct"; "Nov"; "Dec"]%string.

Definition monthShort (d : option Z) : string :=
  match d with
  | None => "Invalid Date"
  | Some tv => default "" (labels !! getMonth tv)
  end.

(** The UTC runtime over a given clock and API. *)
Definition env (clock : list Request → Z)
    (httpUser : list Request → Request → Fetched UserData)
    (httpRepos : list Request → Request → Fetched (list Repo))
    (httpCommits : list Request → Request → Fetched (list Commit)) : Env :=
  mkEnv dateLocal dateParse getFullYear getMonth monthShort
        clock httpUser httpRepos httpCommits.

End Utc.

(** ** The state of the component

    The eight [useState] cells, and two ghost fields that record what the
    component did to the outside: the requests it issued, oldest first, and
    the lines it wrote to the console. *)

Record State := mkState {
  username : string;
  repos : list Repo;
  commitData : list CommitData;
  loading : bool;
  error : string;
  years : list Z;
  selectedYear : option Z;
  showChart : bool;
  requests : list Request;
  console : list LogLine
}.

Definition setRepos (v : list Repo) (st : State) : State :=
  mkState (username st) v (commitData st) (loading st) (error st) (years st)
          (selectedYear st) (showChart st) (requests st) (console st).
Definition setCommitData (v : list CommitData) (st : State) : State :=
  mkState (username st) (repos st) v (loading st) (error st) (years st)
          (selectedYear st) (showChart st) (requests st) (console st).
Definition setLoading (v : bool) (st : State) : State :=
  mkState (username st) (repos st) (commitData st) v (error st) (years st)
          (selectedYear st) (showChart st) (requests st) (console st).
Definition setError (v : string) (st : State) : State :=
  mkState (username st) (repos st) (commitData st) (loading st) v (years st)
          (selectedYear st) (showChart st) (requests st) (console st).
Definition setYears (v : list Z) (st : State) : State :=
  mkState (username st) (repos st) (commitData st) (loading st) (error st) v
          (selectedYear st) (showChart st) (requests st) (console st).
Definition setSelectedYear (v : option Z) (st : State) : State :=
  mkState (username st) (repos st) (commitData st) (loading st) (error st)
          (years st) v (showChart st) (requests st) (console st).
Definition setShowChart (v : bool) (st : State) : State :=
  mkState (username st) (repos st) (commitData st) (loading st) (error st)
          (years st) (selectedYear st) v (requests st) (console st).
Definition issue (url : Request) (st : State) : State :=
  mkState (username st) (repos st) (commitData st) (loading st) (error st)
          (years st) (selectedYear st) (showChart st) (requests st ++ [url])
          (console st).
Definition log (line : LogLine) (st : State) : State :=
  mkState (username st) (repos st) (commitData st) (loading st) (error st)
          (years st) (selectedYear st) (showChart st) (requests st)
          (console st ++ [line]).

(** [error instanceof Error ? error.message : fallback] *)
Definition messageOr (fallback : string) (e : Thrown) : string :=
  match e with
  | ErrorObj message => message
  | NonError => fallback
  end.

(** Reading a property of [undefined]. *)
Definition typeError : Thrown :=
  ErrorObj "Cannot read properties of undefined".

(** [toISOString()] of an Invalid Date. *)
Definition rangeError : Thrown := ErrorObj "Invalid time value".

(** One iteration of the [while] loop of [fetchCommits]: it throws, or it
    leaves new values of [page] and [hasMoreCommits]; either way with the
    buckets and the state as the iteration left them. *)
Inductive Iteration :=
| Threw (e : Thrown) (monthlyCommits : list CommitData) (st : State)
| Next (page : nat) (hasMoreCommits : bool)
       (monthlyCommits : list CommitData) (st : State).

(** A value together with the proof that it is the value of the term
    inspected: the loop below needs the equation of its iteration. *)
Definition inspect {A : Type} (x : A) : {y : A | x = y} := exist _ x eq_refl.

Section Viewer.

Context `{Env}.

(** [fetchWithAuth]: the [catch] logs a rejection and throws it again. *)
Definition fetchWithAuth {B : Type}
    (http : list Request → Request → Fetched B) (url : Request) (st : State)
    : (Thrown + Z * (Thrown + B)) * State :=
  match http (requests st) url with
  | Rejected e =>
      (inl e, log (ConsoleError "Error fetching data:" e) (issue url st))
  | Responded status body => (inr (status, body), issue url st)
  end.

(** [Array.from({ length: 12 }, (_, i) => ({ month: ..., commits: 0 }))] *)
Definition newMonthlyCommits (year : Z) : list CommitData :=
  map (λ i : nat,
         mkCommitData (monthShort (dateLocal year (Z.of_nat i) 1 0 0 0)) 0)
      (seq 0 12).

(** [new Date(commit.commit.author.date).getMonth()]; [None] is [NaN]. *)
Definition monthIndex (commit : Commit) : option nat :=
  getMonth <$> dateParse (author_date commit).

(** [monthlyCommits[monthIndex].commits += 1]: the element at [NaN], or
    past the end, is [undefined], and reading its [commits] throws. *)
Definition countCommit (commit : Commit) (monthlyCommits : list CommitData)
    : Thrown + list CommitData :=
  match monthIndex commit with
  | None => inl typeError
  | Some i =>
      match monthlyCommits !! i with
      | None => inl typeError
      | Some d =>
          inr (<[i := mkCommitData (month d) (commits d + 1)]> monthlyCommits)
      end
  end.

(** [commits.forEach(...)]: the array of buckets is updated in place, so
    that the commits counted before a throw stay counted. *)
Fixpoint forEach (commits : list Commit) (monthlyCommits : list CommitData)
    : option Thrown * list CommitData :=
  match commits with
  | [] => (None, monthlyCommits)
  | commit :: rest =>
      match countCommit commit monthlyCommits with
      | inl e => (Some e, monthlyCommits)
      | inr monthlyCommits' => forEach rest monthlyCommits'
      end
  end.

(** [since], and [until] after the clamp, as the loop over the
    repositories computes them; [toISOString] throws on an Invalid Date. *)
Definition dateWindow (year : Z) (now : Z) (currentYear : Z)
    : Thrown + Z * Z :=
  match dateLocal year 0 1 0 0 0 with
  | None => inl rangeError
  | Some since =>
      match dateLocal year 11 31 23 59 59 with
      | None => inl rangeError
      | Some until =>
          inr (since,
               if (year =? currentYear) && (now <? until) then now else until)
      end
  end.

Section Repository.

Variable repo : Repo.
Variables since until : Z.

(** The URL of a page of the commits of [repo], [per_page=100]. *)
Definition commitsUrl (username : string) (page : nat) : Request :=
  GetCommits username (name repo) since until 100 page.

(** The body of [while (hasMoreCommits)]. *)
Definition iteration (page : nat) (monthlyCommits : list CommitData)
    (st : State) : Iteration :=
  match fetchWithAuth httpCommits (commitsUrl (username st) page) st with
  | (inl e, st) => Threw e monthlyCommits st
  | (inr (status, body), st) =>
      if ok status then
        match body with
        | inl e => Threw e monthlyCommits st
        | inr commits =>
            match forEach commits monthlyCommits with
            | (Some e, monthlyCommits) => Threw e monthlyCommits st
            | (None, monthlyCommits) =>
                let hasMoreCommits := (length commits =? 100)%nat in
                let page := S page in
                let hasMoreCommits :=
                  if (5 <? page)%nat then false else hasMoreCommits in
                Next page hasMoreCommits monthlyCommits st
            end
        end
      else if (status =? 409) || (status =? 404) then
        Next page false monthlyCommits st
      else
        Next page false monthlyCommits
          (log (ConsoleWarn ("Error fetching commits for " +:+ name repo
                             +:+ ": " +:+ pretty status)) st)
  end.

(** [let page = 1; let hasMoreCommits = true; while (hasMoreCommits) ...]
    from any values of the two variables.  The loop is well founded
    because an iteration leaves [hasMoreCommits] set only after it has
    advanced [page], and never past page 5. *)
Equations? whileLoop (page : nat) (hasMoreCommits : bool)
    (monthlyCommits : list CommitData) (st : State)
    : option Thrown * list CommitData * State
    by wf (if hasMoreCommits then S (6 - page) else 0)%nat lt :=
  whileLoop page false monthlyCommits st := (None, monthlyCommits, st);
  whileLoop page true monthlyCommits st
    with inspect (iteration page monthlyCommits st) := {
    | exist _ (Threw e monthlyCommits' st') _ :=
        (Some e, monthlyCommits', st');
    | exist _ (Next page' hasMoreCommits' monthlyCommits' st') Hit :=
        whileLoop page' hasMoreCommits' monthlyCommits' st' }.
Proof.
  destruct hasMoreCommits'; [|lia].
  revert Hit. unfold iteration, fetchWithAuth.
  destruct (httpCommits _ _) as [e|status [e|commits]]; try discriminate;
    destruct (ok status); try discriminate;
    try (destruct (_ || _); discriminate).
  destruct (forEach commits monthlyCommits) as [[e|] mc]; try discriminate.
  destruct (Nat.ltb_spec 5 (S page)); try discriminate.
  intros [= <- _ _ _]. lia.
Qed.

(** [try { ... } catch (repoError) { console.error(...) }] *)
Definition processRepo (monthlyCommits : list CommitData) (st : State)
    : list CommitData * State :=
  match whileLoop 1 true monthlyCommits st with
  | (None, monthlyCommits, st) => (monthlyCommits, st)
  | (Some repoError, monthlyCommits, st) =>
      (monthlyCommits,
       log (ConsoleError ("Error processing repo " +:+ name repo +:+ ":")
                         repoError) st)
  end.

End Repository.

(** [for (const repo of reposToProcess) { ... }]: [since] and [until] are
    computed outside the inner [try], so that a throw there leaves the
    loop; the counters [processedRepos] and [totalRepos] are never read. *)
Fixpoint forRepos (year now currentYear : Z) (reposToProcess : list Repo)
    (monthlyCommits : list CommitData) (st : State)
    : (Thrown + list CommitData) * State :=
  match reposToProcess with
  | [] => (inr monthlyCommits, st)
  | repo :: rest =>
      match dateWindow year now currentYear with
      | inl e => (inl e, st)
      | inr (since, until) =>
          let '(monthlyCommits, st) :=
            processRepo repo since until monthlyCommits st in
          forRepos year now currentYear rest monthlyCommits st
      end
  end.

(** [fetchCommits(year, customRepos)] *)
Definition fetchCommits (year : Z) (customRepos : list Repo) (st : State)
    : State :=
  if (length customRepos =? 0)%nat then st
  else
    let st := setError "" (setShowChart false (setCommitData []
                (setLoading true st))) in
    let now := clock (requests st) in
    let currentYear := getFullYear now in
    let monthlyCommits := newMonthlyCommits year in
    let reposToProcess := take 25 customRepos in
    let st :=
      match forRepos year now currentYear reposToProcess monthlyCommits st with
      | (inr monthlyCommits, st) =>
          setShowChart true (setCommitData monthlyCommits st)
      | (inl e, st) =>
          setError (messageOr "Failed to fetch commit data" e) st
      end in
    setLoading false st.

(** [Array.from({ length: currentYear - createdYear + 1 },
    (_, i) => createdYear + i).reverse()]; a [NaN] length is 0. *)
Definition yearRange (createdYear : option Z) (currentYear : Z) : list Z :=
  match createdYear with
  | None => []
  | Some createdYear =>
      reverse (map (λ i : nat, createdYear + Z.of_nat i)
                   (seq 0 (Z.to_nat (currentYear - createdYear + 1))))
  end.

(** The [throw new Error(...)] of a user response that is not [ok]. *)
Definition userError (status : Z) : Thrown :=
  if status =? 404 then ErrorObj "User not found"
  else if status =? 403 then
    ErrorObj "API rate limit exceeded or authentication issue"
  else if status =? 401 then
    ErrorObj "Invalid GitHub token. Check your configuration."
  else ErrorObj ("GitHub API error: " +:+ pretty status).

Definition reposError (status : Z) : Thrown :=
  ErrorObj ("Failed to fetch repositories: " +:+ pretty status).

(** The [try] block of [fetchReposAndYears]: what it throws, if anything,
    and the state it leaves. *)
Definition setup (st : State) : option Thrown * State :=
  match fetchWithAuth httpUser (GetUser (username st)) st with
  | (inl e, st) => (Some e, st)
  | (inr (status, body), st) =>
      if negb (ok status) then (Some (userError status), st)
      else
        match body with
        | inl e => (Some e, st)
        | inr userData =>
            let createdYear :=
              getFullYear <$> dateParse (created_at userData) in
            let currentYear := getFullYear (clock (requests st)) in
            let st := setSelectedYear (Some currentYear)
                        (setYears (yearRange createdYear currentYear) st) in
            match fetchWithAuth httpRepos (GetRepos (username st) 100) st with
            | (inl e, st) => (Some e, st)
            | (inr (status, body), st) =>
                if negb (ok status) then (Some (reposError status), st)
                else
                  match body with
                  | inl e => (Some e, st)
                  | inr reposData =>
                      let st := setRepos reposData st in
                      if (0 <? length reposData)%nat then
                        (None, fetchCommits currentYear reposData st)
                      else
                        (None,
                         setError "No repositories found for this user"
                                  (setLoading false st))
                  end
            end
        end
  end.

(** [fetchReposAndYears()] *)
Definition fetchReposAndYears (st : State) : State :=
  if bool_decide (username st = "") then
    setError "Please enter a GitHub username" st
  else
    let st := setShowChart false (setYears [] (setRepos []
                (setCommitData [] (setError "" (setLoading true st))))) in
    match setup st with
    | (None, st) => st
    | (Some e, st) =>
        setLoading false (setError (messageOr "An error occurred" e) st)
    end.

Definition handleSearch (st : State) : State := fetchReposAndYears st.

(** [handleYearChange]: [year] is the value of the option selected. *)
Definition handleYearChange (year : Z) (st : State) : State :=
  fetchCommits year (repos st) (setSelectedYear (Some year) st).

End Viewer.

(** ** What is rendered under the year selector *)

(** [commitData.reduce((sum, data) => sum + data.commits, 0)] *)
Definition totalCommits (commitData : list CommitData) : Z :=
  fold_left (λ sum data, sum + commits data) commitData 0.

(** [commitData.reduce((max, data) => data.commits > max.commits ? data : max,
    commitData[0])] *)
Definition mostActive (commitData : list CommitData) : option CommitData :=
  match commitData with
  | [] => None
  | first :: _ =>
      Some (fold_left (λ max data,
                         if commits max <? commits data then data else max)
                      commitData first)
  end.

Inductive ChartView :=
| Hidden
| NoCommitsFound
| Chart (data : list CommitData) (total : Z) (mostActiveMonth : string).

(** [years.length > 0 && ... showChart && commitData.length > 0 &&
     (commitData.every((d) => d.commits === 0) ? ... : ...)] *)
Definition noCommits (commitData : list CommitData) : bool :=
  forallb (λ d, commits d =? 0) commitData.

Definition chartView (st : State) : ChartView :=
  if (0 <? length (years st))%nat && showChart st
     && (0 <? length (commitData st))%nat then
    if noCommits (commitData st) then NoCommitsFound
    else
      match mostActive (commitData st) with
      | Some d => Chart (commitData st) (totalCommits (commitData st)) (month d)
      | None => Hidden
      end
  else Hidden.

(** The error banner: [error && <div>{error}</div>]. *)
Definition errorBanner (st : State) : option string :=
  if bool_decide (error st = "") then None else Some (error st).

(** The year selector: [years.length > 0 && <select value={selectedYear ?? ""}
    disabled={loading}> {years.map(...)} </select>]. *)
Record YearSelector := mkYearSelector {
  offered : list Z;
  chosen : option Z;
  disabled : bool
}.

Definition yearSelector (st : State) : option YearSelector :=
  if (0 <? length (years st))%nat then
    Some (mkYearSelector (years st) (selectedYear st) (loading st))
  else None.

(** ** The input field *)

(** [onChange={(e) => setUsername(e.target.value)}] *)
Definition setUsername (v : string) (st : State) : State :=
  mkState v (repos st) (commitData st) (loading st) (error st) (years st)
          (selectedYear st) (showChart st) (requests st) (console st).

Section Keyboard.

Context `{Env}.

(** [handleKeyDown]: [if (e.key === 'Enter') handleSearch()] *)
Definition handleKeyDown (key : string) (st : State) : State :=
  if bool_decide (key = "Enter") then handleSearch st else st.

End Keyboard.

(** ** Vocabulary of the properties *)

Section Vocabulary.

Context `{Env}.

(** The commit is one that [forEach] counts into an array of [n] buckets:
    its date parses and its month is an index of the array. *)
Definition countable (n : nat) (commit : Commit) : bool :=
  match monthIndex commit with
  | Some i => (i <? n)%nat
  | None => false
  end.

(** The answer is a page after which the loop may go on: a success whose
    body is an array of exactly 100 commits, all of them countable. *)
Definition fullPage (n : nat) (answer : Fetched (list Commit)) : bool :=
  match answer with
  | Responded status (inr commits) =>
      ok status && (length commits =? 100)%nat && forallb (countable n) commits
  | _ => false
  end.

(** How many of the commits were authored in the month of index [i]. *)
Definition authoredIn (i : nat) (commits : list Commit) : Z :=
  Z.of_nat (length (filter (λ c, monthIndex c = Some i) commits)).

(** The API returns no more items on a page than [per_page] asks for. *)
Definition honoursPerPage : Prop :=
  ∀ trace username repo since until per_page page status commits,
    httpCommits trace (GetCommits username repo since until per_page page)
      = Responded status (inr commits) →
    (length commits <= per_page)%nat.

(** The API has no commit to return, whatever is asked. *)
Definition noCommitAnywhere : Prop :=
  ∀ trace url status commits,
    httpCommits trace url = Responded status (inr commits) → commits = [].

(** [st'] is [st] after the requests [urls], with some lines more on the
    console and the eight cells of the component as they were. *)
Definition advancedBy (urls : list Request) (st st' : State) : Prop :=
  requests st' = requests st ++ urls
  ∧ (∃ lines, console st' = console st ++ lines)
  ∧ username st' = username st ∧ repos st' = repos st
  ∧ commitData st' = commitData st ∧ loading st' = loading st
  ∧ error st' = error st ∧ years st' = years st
  ∧ selectedYear st' = selectedYear st ∧ showChart st' = showChart st.

(** The state in which [fetchCommits] enters its [try] block. *)
Definition entered (st : State) : State :=
  setError "" (setShowChart false (setCommitData [] (setLoading true st))).

(** The requests of the pages 1 to [k] of each repository, in order. *)
Definition pagesOf (username : string) (since until : Z)
    (rs : list Repo) (ks : list nat) : list Request :=
  concat (zip_with
            (λ repo k, map (commitsUrl repo since until username) (seq 1 k))
            rs ks).

Definition nonNegative (monthlyCommits : list CommitData) : Prop :=
  Forall (λ d, 0 <= commits d) monthlyCommits.

(** The state and the buckets an iteration leaves. *)
Definition itState (it : Iteration) : State :=
  match it with
  | Threw _ _ st => st
  | Next _ _ _ st => st
  end.

Definition itBuckets (it : Iteration) : list CommitData :=
  match it with
  | Threw _ monthlyCommits _ => monthlyCommits
  | Next _ _ monthlyCommits _ => monthlyCommits
  end.

(** What a run of the loop over the pages does, from [page] on: the requests
    it issues are those of [k] consecutive pages; each page but the last was
    full and not the fifth, and the last was not; the buckets keep their
    labels and only grow. *)
Definition loopSpec (repo : Repo) (since until : Z) (page : nat)
    (hasMoreCommits : bool) (monthlyCommits : list CommitData) (st : State)
    (res : option Thrown * list CommitData * State) : Prop :=
  let url := commitsUrl repo since until (username st) in
  ∃ k : nat,
    advancedBy (map url (seq page k)) st res.2
    ∧ (if hasMoreCommits then (1 <= k)%nat else k = 0%nat)
    ∧ (∀ j, (j < k)%nat →
         (S j < k)%nat ↔
         (page + j < 5)%nat
         ∧ fullPage (length monthlyCommits)
             (httpCommits (requests st ++ map url (seq page j))
                          (url (page + j)%nat)) = true)
    ∧ map month res.1.2 = map month monthlyCommits
    ∧ totalCommits monthlyCommits <= totalCommits res.1.2
    ∧ (nonNegative monthlyCommits → nonNegative res.1.2)
    ∧ (honoursPerPage →
       totalCommits res.1.2
       <= totalCommits monthlyCommits + 100 * Z.of_nat k)
    ∧ (noCommitAnywhere → res.1.2 = monthlyCommits).

(** The two states differ in nothing that a handler reads before it
    writes it: they have the same user name and the same past. *)
Definition sameWorld (st1 st2 : State) : Prop :=
  username st1 = username st2 ∧ requests st1 = requests st2.

End Vocabulary.

(** ** Vocabulary of the further properties *)

(** The user a request is about, and the page size it asks for. *)
Definition requestUser (url : Request) : string :=
  match url with
  | GetUser username => username
  | GetRepos username _ => username
  | GetCommits username _ _ _ _ _ => username
  end.

Definition requestPerPage (url : Request) : option nat :=
  match url with
  | GetUser _ => None
  | GetRepos _ per_page => Some per_page
  | GetCommits _ _ _ _ per_page _ => Some per_page
  end.

Definition isCommitsRequest (url : Request) : bool :=
  match url with
  | GetCommits _ _ _ _ _ _ => true
  | _ => false
  end.

Definition isConsoleError (line : LogLine) : bool :=
  match line with
  | ConsoleError _ _ => true
  | ConsoleWarn _ => false
  end.

(** The state in which [fetchReposAndYears] enters its [try] block. *)
Definition cleared (st : State) : State :=
  setShowChart false (setYears [] (setRepos [] (setCommitData []
    (setError "" (setLoading true st))))).

(** The seven cells other than [selectedYear] are the same. *)
Definition sameCells (st1 st2 : State) : Prop :=
  username st1 = username st2 ∧ repos st1 = repos st2
  ∧ commitData st1 = commitData st2 ∧ loading st1 = loading st2
  ∧ error st1 = error st2 ∧ years st1 = years st2
  ∧ showChart st1 = showChart st2.

Section Delivery.

Context `{Env}.

(** The commits of an answer that the loop over the pages takes in: those
    of a success whose body parses. *)
Definition pageItems (answer : Fetched (list Commit)) : list Commit :=
  match answer with
  | Responded status (inr commits) => if ok status then commits else []
  | _ => []
  end.

(** The commits the API delivers to the requests [urls], issued one after
    the other after the requests [trace]. *)
Fixpoint delivered (trace urls : list Request) : list Commit :=
  match urls with
  | [] => []
  | url :: rest =>
      pageItems (httpCommits trace url) ++ delivered (trace ++ [url]) rest
  end.

(** The buckets [monthlyCommits'] are the buckets [monthlyCommits] with the
    commits [counted] added, each to the bucket of its month. *)
Definition tallied (monthlyCommits : list CommitData) (counted : list Commit)
    (monthlyCommits' : list CommitData) : Prop :=
  length monthlyCommits' = length monthlyCommits
  ∧ totalCommits monthlyCommits'
    = totalCommits monthlyCommits + Z.of_nat (length counted)
  ∧ ∀ i d, monthlyCommits !! i = Some d →
      monthlyCommits' !! i
      = Some (mkCommitData (month d) (commits d + authoredIn i counted)).

(** No line of the console is a [console.error]. *)
Definition noErrorLogged (lines : list LogLine) : bool :=
  forallb (λ line, negb (isConsoleError line)) lines.

End Delivery.

(** ** Scenarios on the reference runtime *)

Module Scenario.

Definition initial (username : string) : State :=
  mkState username [] [] false "" [] None false [] [].

(** 2024-06-15T12:00:00Z *)
Definition noon : Z := 1718452800000.

Definition hello : Repo :=
  mkRepo 1 "hello" "https://github.com/octocat/hello".

Definition march : Commit := mkCommit "2024-03-15T10:20:30Z".
Definition july : Commit := mkCommit "2024-07-04T08:00:00Z".

Definition noUser : list Request → Request → Fetched UserData :=
  λ _ _, Responded 404 (inl NonError).
Definition noRepos : list Request → Request → Fetched (list Repo) :=
  λ _ _, Responded 404 (inl NonError).

(** Pages of 100, 100 and 30 commits, by page number. *)
Definition threePages : list Request → Request → Fetched (list Commit) :=
  λ _ url,
    match url with
    | GetCommits _ _ _ _ _ 1 => Responded 200 (inr (repeat march 100))
    | GetCommits _ _ _ _ _ 2 => Responded 200 (inr (repeat july 100))
    | GetCommits _ _ _ _ _ 3 => Responded 200 (inr (repeat march 30))
    | _ => Responded 200 (inr [])
    end.

(** Every page is full: as many commits as [per_page] asks for. *)
Definition endless : list Request → Request → Fetched (list Commit) :=
  λ _ url,
    match url with
    | GetCommits _ _ _ _ per_page _ =>
        Responded 200 (inr (repeat march per_page))
    | _ => Responded 200 (inr [])
    end.

(** No repository has a commit. *)
Definition quiet : list Request → Request → Fetched (list Commit) :=
  λ _ _, Responded 200 (inr []).

(** The repository "gone" is a 404; the others have the three pages. *)
Definition mixed : list Request → Request → Fetched (list Commit) :=
  λ trace url,
    match url with
    | GetCommits _ repo _ _ _ _ =>
        if bool_decide (repo = "gone") then Responded 404 (inl NonError)
        else threePages trace url
    | _ => Responded 200 (inr [])
    end.

(** A user created in 2020. *)
Definition octocat : list Request → Request → Fetched UserData :=
  λ _ _, Responded 200 (inr (mkUserData "2020-01-01T00:00:00Z")).

Definition emptyAccount : list Request → Request → Fetched (list Repo) :=
  λ _ _, Responded 200 (inr []).

Definition threePagesEnv : Env :=
  Utc.env (λ _, noon) noUser noRepos threePages.
Definition endlessEnv : Env := Utc.env (λ _, noon) noUser noRepos endless.
Definition quietEnv : Env := Utc.env (λ _, noon) noUser noRepos quiet.
Definition mixedEnv : Env := Utc.env (λ _, noon) noUser noRepos mixed.
Definition emptyAccountEnv : Env :=
  Utc.env (λ _, noon) octocat emptyAccount quiet.

(** An account, created in 2020, whose repositories are "gone" and
    "hello". *)
Definition account : list Request → Request → Fetched (list Repo) :=
  λ _ _, Responded 200
           (inr [mkRepo 2 "gone" "https://github.com/octocat/gone";
                 mkRepo 1 "hello" "https://github.com/octocat/hello"]).
Definition accountEnv : Env := Utc.env (λ _, noon) octocat account mixed.

(** 2024-01-01T00:00:00Z, 2025-01-01T00:00:00Z and 2025-12-31T23:59:59Z *)
Definition jan2024 : Z := 1704067200000.
Definition jan2025 : Z := 1735689600000.
Definition dec2025 : Z := 1767225599000.

Definition gone : Repo := mkRepo 2 "gone" "https://github.com/octocat/gone".

(** Thirty repositories, "repo0" to "repo29". *)
Definition thirty : list Repo :=
  map (λ i : nat, mkRepo (Z.of_nat i) ("repo" +:+ pretty i) "") (seq 0 30).

(** The 12 empty buckets of 2024, and the state before a first search. *)
Definition buckets2024 : list CommitData :=
  @newMonthlyCommits quietEnv 2024.
Definition start : State := initial "octocat".

(** February and March are level, ahead of the other months. *)
Definition tied : State :=
  mkState "octocat" [hello]
    [mkCommitData "Jan" 3; mkCommitData "Feb" 5; mkCommitData "Mar" 5;
     mkCommitData "Apr" 0; mkCommitData "May" 0; mkCommitData "Jun" 0;
     mkCommitData "Jul" 0; mkCommitData "Aug" 0; mkCommitData "Sep" 0;
     mkCommitData "Oct" 0; mkCommitData "Nov" 0; mkCommitData "Dec" 0]
    false "" [2024] (Some 2024) true [] [].

(** An account whose creation date does not parse. *)
Definition undated : list Request → Request → Fetched UserData :=
  λ _ _, Responded 200 (inr (mkUserData "unknown")).
Definition undatedEnv : Env := Utc.env (λ _, noon) undated account mixed.

(** No network: every request for a profile is rejected. *)
Definition offline : list Request → Request → Fetched UserData :=
  λ _ _, Rejected (ErrorObj "Failed to fetch").
Definition offlineEnv : Env := Utc.env (λ _, noon) offline noRepos quiet.


End Scenario.


(** * Properties *)

(** ** The buckets *)

Section Buckets.

Context `{Env}.

Implicit Types (mc : list CommitData) (cs : list Commit).

Lemma fold_left_commits mc a :
  fold_left (λ sum data, sum + commits data) mc a = a + totalCommits mc.
Proof.
  unfold totalCommits. revert a.
  induction mc as [|d mc IH]; intros a; simpl; [lia|].
  rewrite IH, (IH (0 + commits d)). lia.
Qed.

Lemma totalCommits_cons d mc :
  totalCommits (d :: mc) = commits d + totalCommits mc.
Proof. unfold totalCommits at 1. simpl. rewrite fold_left_commits. lia. Qed.

Lemma totalCommits_insert mc i d d' :
  mc !! i = Some d →
  totalCommits (<[i := d']> mc) = totalCommits mc - commits d + commits d'.
Proof.
  revert i. induction mc as [|x mc IH]; intros [|i] Hi; try discriminate.
  - injection Hi as ->. simpl. rewrite !totalCommits_cons. lia.
  - simpl in *. rewrite !totalCommits_cons, (IH i Hi). lia.
Qed.

Lemma totalCommits_zero mc :
  Forall (λ d, commits d = 0) mc → totalCommits mc = 0.
Proof.
  induction 1 as [|d mc Hd _ IH]; [reflexivity|].
  rewrite totalCommits_cons. lia.
Qed.

(** [every((d) => d.commits === 0)] fails exactly when some bucket is not
    zero. *)
Lemma noCommits_false mc :
  noCommits mc = false ↔ ∃ d, d ∈ mc ∧ commits d ≠ 0.
Proof.
  unfold noCommits. induction mc as [|d0 mc IH]; simpl.
  - split; [discriminate | intros (d & []%elem_of_nil & _)].
  - rewrite andb_false_iff, IH, Z.eqb_neq. split.
    + intros [Hd0 | (d & Hd & Hc)]; [exists d0 | exists d];
        (split; [|assumption]); [left | right; assumption].
    + intros (d & [-> | Hd]%elem_of_cons & Hc); [left | right; eauto].
      assumption.
Qed.

Lemma newMonthlyCommits_length year :
  length (newMonthlyCommits year) = 12%nat.
Proof. reflexivity. Qed.

Lemma newMonthlyCommits_zero year :
  Forall (λ d, commits d = 0) (newMonthlyCommits year).
Proof. unfold newMonthlyCommits. repeat constructor. Qed.

(** What [countCommit] does when it does not throw. *)
Lemma countCommit_inr c mc mc' :
  countCommit c mc = inr mc' →
  ∃ i d, monthIndex c = Some i ∧ mc !! i = Some d
         ∧ mc' = <[i := mkCommitData (month d) (commits d + 1)]> mc.
Proof.
  unfold countCommit. destruct (monthIndex c) as [i|]; [|discriminate].
  destruct (mc !! i) as [d|] eqn:Hd; [|discriminate].
  intros [= <-]. eauto.
Qed.

Lemma countCommit_countable c mc :
  countable (length mc) c = true ↔ ∃ mc', countCommit c mc = inr mc'.
Proof.
  unfold countable, countCommit. destruct (monthIndex c) as [i|].
  - rewrite Nat.ltb_lt. split.
    + intros Hi. destruct (lookup_lt_is_Some_2 mc i Hi) as [d ->]. eauto.
    + intros [mc' Hc]. destruct (mc !! i) eqn:Hd; [|discriminate].
      eapply lookup_lt_Some, Hd.
  - split; [discriminate | intros [? ?]; discriminate].
Qed.

Lemma countCommit_months c mc mc' :
  countCommit c mc = inr mc' → map month mc' = map month mc.
Proof.
  intros (i & d & _ & Hd & ->)%countCommit_inr.
  rewrite list_fmap_insert. simpl. apply list_insert_id.
  rewrite list_lookup_fmap, Hd. reflexivity.
Qed.

Lemma countCommit_total c mc mc' :
  countCommit c mc = inr mc' → totalCommits mc' = totalCommits mc + 1.
Proof.
  intros (i & d & _ & Hd & ->)%countCommit_inr.
  rewrite (totalCommits_insert _ _ _ _ Hd). simpl. lia.
Qed.

(** The bucket of the month of the commit gains one; the others stay. *)
Lemma countCommit_lookup c mc mc' j d :
  countCommit c mc = inr mc' → mc !! j = Some d →
  mc' !! j = Some (mkCommitData (month d)
                     (commits d + authoredIn j [c])).
Proof.
  intros (i & d0 & Hc & Hd & ->)%countCommit_inr Hj.
  unfold authoredIn. simpl. rewrite filter_cons, filter_nil.
  destruct (decide (i = j)) as [->|Hne].
  - rewrite list_lookup_insert_eq by (eapply lookup_lt_Some, Hd).
    rewrite Hd in Hj. injection Hj as ->.
    rewrite decide_True by assumption. reflexivity.
  - rewrite list_lookup_insert_ne by assumption.
    rewrite decide_False by congruence. rewrite Hj. destruct d; simpl.
    do 2 f_equal. lia.
Qed.

Lemma authoredIn_cons j c cs :
  authoredIn j (c :: cs) = authoredIn j [c] + authoredIn j cs.
Proof.
  unfold authoredIn. rewrite !filter_cons, filter_nil.
  destruct (decide _); simpl; lia.
Qed.

Lemma authoredIn_app j cs1 cs2 :
  authoredIn j (cs1 ++ cs2) = authoredIn j cs1 + authoredIn j cs2.
Proof.
  unfold authoredIn. rewrite filter_app, length_app. lia.
Qed.

Lemma authoredIn_nonneg j cs : 0 <= authoredIn j cs.
Proof. unfold authoredIn. lia. Qed.

(** [forEach] keeps the labels, never lowers a bucket and adds at most one
    per commit. *)
Lemma forEach_spec cs mc r mc' :
  forEach cs mc = (r, mc') →
  map month mc' = map month mc
  ∧ totalCommits mc <= totalCommits mc'
    <= totalCommits mc + Z.of_nat (length cs)
  ∧ (nonNegative mc → nonNegative mc').
Proof.
  unfold nonNegative.
  revert mc. induction cs as [|c cs IH]; intros mc; simpl.
  - intros [= <- <-]. split; [reflexivity | split; [lia | tauto]].
  - destruct (countCommit c mc) as [e|mc1] eqn:Hc.
    + intros [= <- <-]. split; [reflexivity | split; [lia | tauto]].
    + intros (Hm & Ht & Hn)%IH.
      rewrite (countCommit_months _ _ _ Hc) in Hm.
      rewrite (countCommit_total _ _ _ Hc) in Ht.
      split; [assumption | split; [lia|]].
      intros Hpos. apply Hn.
      apply countCommit_inr in Hc as (i & d & _ & Hd & ->).
      apply Forall_insert; [assumption|]. simpl.
      rewrite Forall_lookup in Hpos. specialize (Hpos _ _ Hd).
      simpl in Hpos. lia.
Qed.

(** [forEach] runs to the end exactly when every commit is countable. *)
Lemma forEach_countable cs mc :
  forallb (countable (length mc)) cs = true ↔
  ∃ mc', forEach cs mc = (None, mc').
Proof.
  revert mc. induction cs as [|c cs IH]; intros mc; simpl.
  - split; eauto.
  - rewrite andb_true_iff, countCommit_countable. split.
    + intros [[mc1 Hc] Hcs]. rewrite Hc.
      apply IH. erewrite <- (length_map month), countCommit_months,
        length_map by eassumption. assumption.
    + destruct (countCommit c mc) as [e|mc1] eqn:Hc;
        [intros [? ?]; discriminate|].
      intros Hex. split; [eauto|].
      apply IH in Hex.
      erewrite <- (length_map month), countCommit_months, length_map
        in Hex by eassumption. assumption.
Qed.

(** When [forEach] runs to the end, every commit is in the bucket of its
    month. *)
Lemma forEach_counts cs mc mc' :
  forEach cs mc = (None, mc') →
  totalCommits mc' = totalCommits mc + Z.of_nat (length cs)
  ∧ ∀ j d, mc !! j = Some d →
      mc' !! j = Some (mkCommitData (month d) (commits d + authoredIn j cs)).
Proof.
  revert mc. induction cs as [|c cs IH]; intros mc; simpl.
  - intros [= <-]. split; [lia|]. intros j [m n] Hj. rewrite Hj.
    unfold authoredIn. simpl. do 2 f_equal. lia.
  - destruct (countCommit c mc) as [e|mc1] eqn:Hc; [discriminate|].
    intros [Ht Hl]%IH. rewrite (countCommit_total _ _ _ Hc) in Ht.
    split; [lia|]. intros j d Hj.
    rewrite (Hl j _ (countCommit_lookup _ _ _ _ _ Hc Hj)). simpl.
    rewrite (authoredIn_cons j c cs). do 2 f_equal. lia.
Qed.

Lemma forEach_app cs1 cs2 mc :
  forEach (cs1 ++ cs2) mc =
  match forEach cs1 mc with
  | (None, mc1) => forEach cs2 mc1
  | (Some e, mc1) => (Some e, mc1)
  end.
Proof.
  revert mc. induction cs1 as [|c cs1 IH]; intros mc; simpl; [reflexivity|].
  destruct (countCommit c mc); [reflexivity | apply IH].
Qed.

Lemma forEach_length cs mc r mc' :
  forEach cs mc = (r, mc') → length mc' = length mc.
Proof.
  intros (Hm & _)%forEach_spec.
  rewrite <- (length_map month mc'), Hm, length_map. reflexivity.
Qed.

End Buckets.

(** ** One repository: the loop over its pages *)

Section Pagination.

Context `{Env}.
Variable repo : Repo.
Variables since until : Z.

Implicit Types (mc : list CommitData) (st : State) (page : nat).

Local Abbreviation url := (commitsUrl repo since until).
Local Abbreviation body := (iteration repo since until).
Local Abbreviation loop := (whileLoop repo since until).

Lemma advancedBy_refl st : advancedBy [] st st.
Proof.
  unfold advancedBy. rewrite app_nil_r.
  repeat split. exists []. rewrite app_nil_r. reflexivity.
Qed.

Lemma advancedBy_trans urls1 urls2 st1 st2 st3 :
  advancedBy urls1 st1 st2 → advancedBy urls2 st2 st3 →
  advancedBy (urls1 ++ urls2) st1 st3.
Proof.
  unfold advancedBy.
  intros (Hr1 & [l1 Hc1] & ? & ? & ? & ? & ? & ? & ? & ?)
         (Hr2 & [l2 Hc2] & ? & ? & ? & ? & ? & ? & ? & ?).
  repeat split; try congruence.
  - rewrite Hr2, Hr1, app_assoc. reflexivity.
  - exists (l1 ++ l2). rewrite Hc2, Hc1, app_assoc. reflexivity.
Qed.

Lemma advancedBy_issue u st : advancedBy [u] st (issue u st).
Proof.
  unfold advancedBy. simpl. repeat split.
  exists []. rewrite app_nil_r. reflexivity.
Qed.

Lemma advancedBy_log urls line st st' :
  advancedBy urls st st' → advancedBy urls st (log line st').
Proof.
  unfold advancedBy. simpl.
  intros (Hr & [l Hc] & ? & ? & ? & ? & ? & ? & ? & ?).
  repeat split; try assumption.
  exists (l ++ [line]). rewrite Hc, app_assoc. reflexivity.
Qed.

Ltac iteration_cases :=
  unfold iteration, fetchWithAuth;
  destruct (httpCommits _ _) as [?e|?status [?e|?cs]] eqn:?Hanswer;
  [ | destruct (ok _) eqn:?Hok; [ | destruct (_ || _) eqn:?Hgone ]
    | destruct (ok _) eqn:?Hok;
      [ destruct (forEach _ _) as [[?e|] ?mc] eqn:?Hfe
      | destruct (_ || _) eqn:?Hgone ] ];
  simpl.

(** Every iteration issues the request of its page and nothing else. *)
Lemma iteration_advanced page mc st :
  advancedBy [url (username st) page] st (itState (body page mc st)).
Proof.
  iteration_cases;
    repeat apply advancedBy_log; apply advancedBy_issue.
Qed.

Lemma iteration_buckets page mc st :
  let mc' := itBuckets (body page mc st) in
  map month mc' = map month mc
  ∧ totalCommits mc <= totalCommits mc'
  ∧ (nonNegative mc → nonNegative mc')
  ∧ (honoursPerPage → totalCommits mc' <= totalCommits mc + 100)
  ∧ (noCommitAnywhere → mc' = mc).
Proof.
  iteration_cases;
    try (split; [reflexivity | split; [lia | split; [tauto |]]];
         split; [intros _; lia | reflexivity]).
  all: pose proof (forEach_spec _ _ _ _ Hfe) as (Hm & Ht & Hn);
    split; [assumption | split; [lia | split; [assumption |]]].
  all: split;
    [ intros Hpp; apply Hpp in Hanswer; lia
    | intros Hno; apply Hno in Hanswer; subst; simpl in Hfe; congruence ].
Qed.

(** The loop goes on after an iteration exactly when the page was full and
    was not the fifth. *)
Lemma iteration_Next_true page mc st page' mc' st' :
  body page mc st = Next page' true mc' st' →
  page' = S page ∧ (page < 5)%nat
  ∧ fullPage (length mc)
      (httpCommits (requests st) (url (username st) page)) = true.
Proof.
  iteration_cases; try discriminate.
  destruct (Nat.ltb_spec 5 (S page)); [discriminate|].
  intros [= <- Hlen <- <-]. split; [reflexivity | split; [lia|]].
  rewrite Hok, Hlen. simpl. apply forEach_countable. eauto.
Qed.

Lemma iteration_full page mc st :
  (page < 5)%nat →
  fullPage (length mc)
    (httpCommits (requests st) (url (username st) page)) = true →
  ∃ mc' st', body page mc st = Next (S page) true mc' st'.
Proof.
  intros Hpage. iteration_cases; try discriminate.
  all: rewrite ?andb_true_iff; intros [[Hok' Hlen] Hall]; try congruence;
    try (apply forEach_countable in Hall as [mc2 Hmc2]; congruence).
  rewrite Hlen. destruct (Nat.ltb_spec 5 (S page)); [lia|]. eauto.
Qed.

Lemma iteration_stops page mc st (it : Iteration) :
  body page mc st = it →
  (∀ page' mc' st', it ≠ Next page' true mc' st') →
  ¬ ((page < 5)%nat
     ∧ fullPage (length mc)
         (httpCommits (requests st) (url (username st) page)) = true).
Proof.
  intros <- Hit [Hpage Hfull].
  destruct (iteration_full _ _ _ Hpage Hfull) as (mc' & st' & Heq).
  eapply Hit, Heq.
Qed.

(** Induction along the iterations of the loop. *)
Lemma whileLoop_induction
    (P : nat → bool → list CommitData → State
         → option Thrown * list CommitData * State → Prop) :
  (∀ page mc st, P page false mc st (None, mc, st)) →
  (∀ page mc st e mc' st',
     body page mc st = Threw e mc' st' →
     P page true mc st (Some e, mc', st')) →
  (∀ page mc st page' has' mc' st',
     body page mc st = Next page' has' mc' st' →
     P page' has' mc' st' (loop page' has' mc' st') →
     P page true mc st (loop page' has' mc' st')) →
  ∀ page has mc st, P page has mc st (loop page has mc st).
Proof.
  intros Hstop Hthrow Hnext page has mc st.
  funelim (loop page has mc st).
  - apply Hstop.
  - eapply Hthrow; eassumption.
  - eapply Hnext; [eassumption|].
    match goal with IH : ∀ P, _ |- _ => apply IH; assumption end.
Qed.

(** The loop, one iteration unfolded. *)
Lemma whileLoop_true page mc st :
  loop page true mc st =
  match body page mc st with
  | Threw e mc' st' => (Some e, mc', st')
  | Next page' has' mc' st' => loop page' has' mc' st'
  end.
Proof.
  enough (Hgen : ∀ has, has = true →
            loop page has mc st =
            match body page mc st with
            | Threw e mc' st' => (Some e, mc', st')
            | Next page' has' mc' st' => loop page' has' mc' st'
            end) by (apply Hgen; reflexivity).
  intros has. pattern page, has, mc, st, (loop page has mc st).
  apply whileLoop_induction; clear.
  - discriminate.
  - intros page mc st e mc' st' -> _. reflexivity.
  - intros page mc st page' has' mc' st' -> _ _. reflexivity.
Qed.

Lemma whileLoop_false page mc st : loop page false mc st = (None, mc, st).
Proof. simp whileLoop. reflexivity. Qed.

(** A success whose commits are all counted: the iteration goes to the
    next page, and on exactly when the page held 100 commits and was not
    the fifth. *)
Lemma iteration_ok page mc st status cs mc' :
  httpCommits (requests st) (url (username st) page)
    = Responded status (inr cs) →
  ok status = true →
  forEach cs mc = (None, mc') →
  body page mc st =
  Next (S page) (if (5 <? S page)%nat then false else (length cs =? 100)%nat)
       mc' (issue (url (username st) page) st).
Proof.
  intros Hanswer Hok Hfe. unfold iteration, fetchWithAuth.
  rewrite Hanswer, Hok, Hfe. reflexivity.
Qed.

Lemma sameWorld_iteration page mc st1 st2 :
  sameWorld st1 st2 →
  match body page mc st1, body page mc st2 with
  | Threw e1 mc1 st1', Threw e2 mc2 st2' =>
      e1 = e2 ∧ mc1 = mc2 ∧ sameWorld st1' st2'
  | Next page1 has1 mc1 st1', Next page2 has2 mc2 st2' =>
      page1 = page2 ∧ has1 = has2 ∧ mc1 = mc2 ∧ sameWorld st1' st2'
  | _, _ => False
  end.
Proof.
  intros [Hu Hr]. unfold iteration, fetchWithAuth. rewrite Hu, Hr.
  destruct (httpCommits _ _) as [e|status [e|cs]];
    [ | destruct (ok _); [ | destruct (_ || _) ]
      | destruct (ok _);
        [ destruct (forEach _ _) as [[e|] mc']
        | destruct (_ || _) ] ];
    unfold sameWorld; simpl; rewrite ?Hu, ?Hr; repeat split.
Qed.

(** The loop reads nothing of the state but the user name and the past. *)
Lemma sameWorld_whileLoop page has mc st1 st2 :
  sameWorld st1 st2 →
  (loop page has mc st1).1 = (loop page has mc st2).1
  ∧ sameWorld (loop page has mc st1).2 (loop page has mc st2).2.
Proof.
  revert st2. pattern page, has, mc, st1, (loop page has mc st1).
  apply whileLoop_induction; clear page has mc st1.
  - intros page mc st1 st2 Hs. rewrite whileLoop_false. simpl. tauto.
  - intros page mc st1 e mc' st1' Hit st2 Hs. rewrite whileLoop_true.
    pose proof (sameWorld_iteration page mc st1 st2 Hs) as Hrel.
    rewrite Hit in Hrel. destruct (body page mc st2); [|contradiction].
    destruct Hrel as (-> & -> & Hs'). simpl. tauto.
  - intros page mc st1 page' has' mc' st1' Hit IH st2 Hs.
    rewrite (whileLoop_true page mc st2).
    pose proof (sameWorld_iteration page mc st1 st2 Hs) as Hrel.
    rewrite Hit in Hrel. destruct (body page mc st2); [contradiction|].
    destruct Hrel as (-> & -> & -> & Hs'). apply IH, Hs'.
Qed.

Lemma loopSpec_last page mc st (it : Iteration) r :
  body page mc st = it →
  (∀ page' mc' st', it ≠ Next page' true mc' st') →
  loopSpec repo since until page true mc st (r, itBuckets it, itState it).
Proof.
  intros Hit Hstop. exists 1%nat. simpl.
  pose proof (iteration_advanced page mc st) as Hadv.
  pose proof (iteration_buckets page mc st) as (Hm & Ht & Hn & Hpp & Hno).
  rewrite Hit in Hadv, Hm, Ht, Hn, Hpp, Hno.
  split; [assumption | split; [lia|]].
  split; [| repeat split; try assumption; intros Hh; specialize (Hpp Hh); lia].
  intros j Hj. assert (j = 0)%nat as -> by lia. simpl.
  rewrite app_nil_r, Nat.add_0_r. split; [lia|].
  intros Hfull. exfalso. eapply iteration_stops; eassumption.
Qed.

Lemma whileLoop_spec page has mc st :
  loopSpec repo since until page has mc st (loop page has mc st).
Proof.
  apply whileLoop_induction; clear page has mc st.
  - intros page mc st. exists 0%nat. simpl.
    split; [apply advancedBy_refl | split; [reflexivity|]].
    split; [intros j Hj; lia|].
    repeat split; try tauto; lia.
  - intros page mc st e mc' st' Hit.
    apply (loopSpec_last page mc st (Threw e mc' st') (Some e) Hit).
    discriminate.
  - intros page mc st page' [|] mc1 st1 Hit IH.
    + (* the page was full: the loop goes on *)
      destruct (iteration_Next_true _ _ _ _ _ _ Hit) as (-> & Hpage & Hfull).
      pose proof (iteration_advanced page mc st) as Hadv.
      pose proof (iteration_buckets page mc st) as (Hm & Ht & Hn & Hpp & Hno).
      rewrite Hit in Hadv, Hm, Ht, Hn, Hpp, Hno. simpl in *.
      destruct IH as (k & Hadv' & Hk & Hpages & Hm' & Ht' & Hn' & Hpp' & Hno').
      assert (Hu : username st1 = username st) by apply Hadv.
      assert (Hr : requests st1 = requests st ++ [url (username st) page])
        by apply Hadv.
      assert (Hlen : length mc1 = length mc)
        by (rewrite <- (length_map month mc1), Hm, length_map; reflexivity).
      rewrite Hu in Hadv', Hpages. rewrite Hlen in Hpages.
      exists (S k). split; [| split; [lia|]].
      * apply (advancedBy_trans [_] _ _ _ _ Hadv Hadv').
      * split; [| repeat split].
        -- intros [|j] Hj.
           ++ simpl. rewrite app_nil_r, Nat.add_0_r. split; [tauto | lia].
           ++ rewrite <- Nat.succ_lt_mono, (Hpages j) by lia.
              rewrite Hr, <- app_assoc. simpl.
              replace (page + S j)%nat with (S (page + j)) by lia.
              rewrite <- Nat.succ_lt_mono. reflexivity.
        -- congruence.
        -- lia.
        -- tauto.
        -- intros Hh. specialize (Hpp Hh). specialize (Hpp' Hh). lia.
        -- intros Hh. rewrite (Hno' Hh). apply Hno, Hh.
    + (* the loop stops after this iteration *)
      rewrite whileLoop_false.
      apply (loopSpec_last page mc st (Next page' false mc1 st1) None Hit).
      discriminate.
Qed.

(** A page that is a success and whose commits are all counted. *)
Lemma whileLoop_step page mc st status cs mc1 :
  httpCommits (requests st) (url (username st) page)
    = Responded status (inr cs) →
  ok status = true →
  forEach cs mc = (None, mc1) →
  loop page true mc st =
  loop (S page)
       (if (5 <? S page)%nat then false else (length cs =? 100)%nat)
       mc1 (issue (url (username st) page) st).
Proof.
  intros Hanswer Hok Hfe.
  rewrite whileLoop_true, (iteration_ok _ _ _ _ _ _ Hanswer Hok Hfe).
  reflexivity.
Qed.

(** A page that is not a success ends the loop, and nothing is thrown. *)
Lemma whileLoop_stop page mc st status body :
  httpCommits (requests st) (url (username st) page)
    = Responded status body →
  ok status = false →
  loop page true mc st =
  (None, mc,
   if (status =? 409) || (status =? 404)
   then issue (url (username st) page) st
   else log (ConsoleWarn ("Error fetching commits for " +:+ name repo
                          +:+ ": " +:+ pretty status))
            (issue (url (username st) page) st)).
Proof.
  intros Hanswer Hok. rewrite whileLoop_true.
  unfold iteration, fetchWithAuth. rewrite Hanswer, Hok.
  destruct ((status =? 409) || (status =? 404)); apply whileLoop_false.
Qed.

(** A rejected [fetch] leaves the loop by a throw, logged once by
    [fetchWithAuth]. *)
Lemma whileLoop_rejected page mc st e :
  httpCommits (requests st) (url (username st) page) = Rejected e →
  loop page true mc st =
  (Some e, mc,
   log (ConsoleError "Error fetching data:" e)
       (issue (url (username st) page) st)).
Proof.
  intros Hanswer. rewrite whileLoop_true.
  unfold iteration, fetchWithAuth. rewrite Hanswer. reflexivity.
Qed.

Lemma fullPage_inv n answer :
  fullPage n answer = true →
  ∃ status cs, answer = Responded status (inr cs) ∧ ok status = true
               ∧ length cs = 100%nat ∧ forallb (countable n) cs = true.
Proof.
  destruct answer as [e|status [e|cs]]; try discriminate. simpl.
  rewrite !andb_true_iff, Nat.eqb_eq. intros [[Hok Hlen] Hall]. eauto 6.
Qed.

(** [n] full pages in a row, none of them the fifth: the loop reaches the
    page after them with 100 commits more for each, and a silent console. *)
Lemma whileLoop_full n :
  ∀ page mc st,
    (page + n <= 5)%nat →
    (∀ j, (j < n)%nat →
       fullPage (length mc)
         (httpCommits (requests st ++ map (url (username st)) (seq page j))
                      (url (username st) (page + j))) = true) →
    ∃ mc' st',
      loop page true mc st = loop (page + n) true mc' st'
      ∧ requests st' = requests st ++ map (url (username st)) (seq page n)
      ∧ console st' = console st ∧ username st' = username st
      ∧ length mc' = length mc
      ∧ totalCommits mc' = totalCommits mc + 100 * Z.of_nat n.
Proof.
  induction n as [|n IH]; intros page mc st Hcap Hfull.
  - exists mc, st. rewrite Nat.add_0_r, app_nil_r.
    repeat split; lia.
  - destruct (fullPage_inv _ _ (Hfull 0%nat ltac:(lia)))
      as (status & cs & Hanswer & Hok & Hlen & Hall).
    simpl in Hanswer. rewrite app_nil_r, Nat.add_0_r in Hanswer.
    apply forEach_countable in Hall as [mc1 Hfe].
    rewrite (whileLoop_step _ _ _ _ _ _ Hanswer Hok Hfe), Hlen.
    destruct (Nat.ltb_spec 5 (S page)); [lia|]. simpl.
    pose proof (forEach_length _ _ _ _ Hfe) as Hlen1.
    destruct (forEach_counts _ _ _ Hfe) as [Htot _].
    destruct (IH (S page) mc1 (issue (url (username st) page) st))
      as (mc' & st' & Hrun & Hr & Hc & Hu & Hl & Ht); [lia | |].
    + intros j Hj. specialize (Hfull (S j) ltac:(lia)).
      rewrite Hlen1. simpl. rewrite <- app_assoc. simpl in Hfull |- *.
      replace (page + S j)%nat with (S (page + j)) in Hfull by lia.
      exact Hfull.
    + exists mc', st'. replace (page + S n)%nat with (S page + n)%nat by lia.
      split; [exact Hrun|]. simpl in Hr, Hc, Hu.
      split; [rewrite Hr, <- app_assoc; reflexivity|].
      repeat split; try congruence. lia.
Qed.

End Pagination.

(** ** All repositories *)

Section Aggregation.

Context `{Env}.

Implicit Types (mc : list CommitData) (st : State) (repo : Repo).

(** What the [try]/[catch] around the loop of one repository does. *)
Lemma processRepo_spec repo since until mc st :
  ∃ k : nat,
    (1 <= k <= 5)%nat
    ∧ advancedBy (map (commitsUrl repo since until (username st)) (seq 1 k))
        st (processRepo repo since until mc st).2
    ∧ (∀ j, (j < k)%nat →
         (S j < k)%nat ↔
         (S j < 5)%nat
         ∧ fullPage (length mc)
             (httpCommits
                (requests st
                 ++ map (commitsUrl repo since until (username st)) (seq 1 j))
                (commitsUrl repo since until (username st) (S j))) = true)
    ∧ map month (processRepo repo since until mc st).1 = map month mc
    ∧ totalCommits mc <= totalCommits (processRepo repo since until mc st).1
    ∧ (nonNegative mc →
       nonNegative (processRepo repo since until mc st).1)
    ∧ (honoursPerPage →
       totalCommits (processRepo repo since until mc st).1
       <= totalCommits mc + 100 * Z.of_nat k)
    ∧ (noCommitAnywhere → (processRepo repo since until mc st).1 = mc).
Proof.
  destruct (whileLoop_spec repo since until 1 true mc st)
    as (k & Hadv & Hk & Hpages & Hrest).
  exists k. unfold processRepo.
  destruct (whileLoop repo since until 1 true mc st) as [[[e|] mc'] st'];
    simpl in *.
  all: split; [split; [assumption|] | split; [| split; [assumption|]]];
    try assumption; try (apply advancedBy_log; assumption).
  all: destruct (Nat.le_gt_cases k 5) as [|Hbig]; [assumption|];
    exfalso; destruct (Hpages (k - 2)%nat) as [Hfive _]; lia.
Qed.

Lemma sameWorld_processRepo repo since until mc st1 st2 :
  sameWorld st1 st2 →
  (processRepo repo since until mc st1).1
  = (processRepo repo since until mc st2).1
  ∧ sameWorld (processRepo repo since until mc st1).2
              (processRepo repo since until mc st2).2.
Proof.
  intros Hs. unfold processRepo.
  destruct (sameWorld_whileLoop repo since until 1 true mc st1 st2 Hs)
    as [Heq Hs'].
  destruct (whileLoop repo since until 1 true mc st1) as [[r1 mc1] st1'],
           (whileLoop repo since until 1 true mc st2) as [[r2 mc2] st2'].
  simpl in *. injection Heq as -> ->.
  destruct r2; simpl; split; try reflexivity; assumption.
Qed.

(** The loop over the repositories, when the dates of the year are valid:
    it cannot throw. *)
Lemma forRepos_spec year now currentYear since until rs :
  dateWindow year now currentYear = inr (since, until) →
  ∀ mc st,
  ∃ mc' st' ks,
    forRepos year now currentYear rs mc st = (inr mc', st')
    ∧ length ks = length rs
    ∧ Forall (λ k, 1 <= k <= 5)%nat ks
    ∧ advancedBy (pagesOf (username st) since until rs ks) st st'
    ∧ map month mc' = map month mc
    ∧ totalCommits mc <= totalCommits mc'
    ∧ (nonNegative mc → nonNegative mc')
    ∧ (honoursPerPage →
       totalCommits mc' <= totalCommits mc + 500 * Z.of_nat (length rs))
    ∧ (noCommitAnywhere → mc' = mc).
Proof.
  intros Hw. induction rs as [|repo rs IH]; intros mc st.
  - exists mc, st, [].
    split; [reflexivity | split; [reflexivity | split; [constructor|]]].
    split; [apply advancedBy_refl|]. simpl.
    repeat split; try tauto; lia.
  - simpl. rewrite Hw.
    destruct (processRepo_spec repo since until mc st)
      as (k & Hk & Hadv & _ & Hm & Ht & Hn & Hpp & Hno).
    destruct (processRepo repo since until mc st) as [mc1 st1]. simpl in *.
    destruct (IH mc1 st1)
      as (mc' & st' & ks & -> & Hlen & Hks & Hadv' & Hm' & Ht' & Hn' & Hpp'
          & Hno').
    assert (Hu : username st1 = username st) by apply Hadv.
    rewrite Hu in Hadv'.
    exists mc', st', (k :: ks). simpl.
    split; [reflexivity | split; [lia | split; [constructor; assumption|]]].
    split; [apply (advancedBy_trans _ _ _ _ _ Hadv Hadv')|].
    split; [congruence | split; [lia | split; [tauto|]]].
    split.
    + intros Hh. specialize (Hpp Hh). specialize (Hpp' Hh). lia.
    + intros Hh. rewrite (Hno' Hh). apply Hno, Hh.
Qed.

(** When a date of the year is invalid the loop throws at its first
    repository, before any request. *)
Lemma forRepos_invalid year now currentYear e repo rs mc st :
  dateWindow year now currentYear = inl e →
  forRepos year now currentYear (repo :: rs) mc st = (inl e, st).
Proof. intros Hw. simpl. rewrite Hw. reflexivity. Qed.

(** The loop over a list is the loop over its first part, then over the
    rest from where the first part left. *)
Lemma forRepos_app year now currentYear rs1 rs2 mc st :
  forRepos year now currentYear (rs1 ++ rs2) mc st =
  match forRepos year now currentYear rs1 mc st with
  | (inr mc1, st1) => forRepos year now currentYear rs2 mc1 st1
  | (inl e, st1) => (inl e, st1)
  end.
Proof.
  revert mc st. induction rs1 as [|repo rs1 IH]; intros mc st; simpl.
  - reflexivity.
  - destruct (dateWindow year now currentYear) as [e|[since until]];
      [reflexivity|].
    destruct (processRepo repo since until mc st) as [mc1 st1]. apply IH.
Qed.

Lemma sameWorld_forRepos year now currentYear rs mc st1 st2 :
  sameWorld st1 st2 →
  (forRepos year now currentYear rs mc st1).1
  = (forRepos year now currentYear rs mc st2).1
  ∧ sameWorld (forRepos year now currentYear rs mc st1).2
              (forRepos year now currentYear rs mc st2).2.
Proof.
  revert mc st1 st2. induction rs as [|repo rs IH]; intros mc st1 st2 Hs.
  - simpl. tauto.
  - simpl. destruct (dateWindow year now currentYear) as [e|[since until]];
      [simpl; tauto|].
    destruct (sameWorld_processRepo repo since until mc st1 st2 Hs)
      as [Heq Hs'].
    destruct (processRepo repo since until mc st1) as [mc1 st1'],
             (processRepo repo since until mc st2) as [mc2 st2'].
    simpl in *. subst mc2. apply IH, Hs'.
Qed.

Lemma pagesOf_elem username since until rs ks u :
  u ∈ pagesOf username since until rs ks →
  ∃ repo page, repo ∈ rs ∧ (1 <= page)%nat
               ∧ u = commitsUrl repo since until username page.
Proof.
  unfold pagesOf. revert ks.
  induction rs as [|repo rs IH]; intros [|k ks]; simpl;
    try (intros []%elem_of_nil).
  rewrite elem_of_app. intros [Hu|Hu].
  - apply list_elem_of_fmap in Hu as (page & -> & Hpage).
    apply elem_of_seq in Hpage. exists repo, page.
    split; [left | split; [lia | reflexivity]].
  - destruct (IH ks Hu) as (repo' & page & Hin & Hpage & ->).
    exists repo', page. split; [right; assumption | tauto].
Qed.

(** A run of [fetchCommits] over a list that is not empty, for a year
    whose dates are valid. *)
Lemma fetchCommits_valid year customRepos st since until :
  customRepos ≠ [] →
  dateWindow year (clock (requests st)) (getFullYear (clock (requests st)))
    = inr (since, until) →
  let st' := fetchCommits year customRepos st in
  ∃ ks,
    length ks = length (take 25 customRepos)
    ∧ Forall (λ k, 1 <= k <= 5)%nat ks
    ∧ requests st'
      = requests st ++ pagesOf (username st) since until
                         (take 25 customRepos) ks
    ∧ (∃ lines, console st' = console st ++ lines)
    ∧ (username st' = username st ∧ repos st' = repos st
       ∧ years st' = years st ∧ selectedYear st' = selectedYear st)
    ∧ (showChart st' = true ∧ error st' = "" ∧ loading st' = false)
    ∧ map month (commitData st') = map month (newMonthlyCommits year)
    ∧ nonNegative (commitData st')
    ∧ (honoursPerPage →
       totalCommits (commitData st')
       <= 500 * Z.of_nat (length (take 25 customRepos)))
    ∧ (noCommitAnywhere → commitData st' = newMonthlyCommits year).
Proof.
  intros Hne Hw. unfold fetchCommits.
  destruct customRepos as [|repo rest]; [contradiction|].
  change (length (repo :: rest) =? 0)%nat with false. cbv iota.
  fold (entered st).
  change (requests (entered st)) with (requests st).
  destruct (forRepos_spec year _ _ since until (take 25 (repo :: rest)) Hw
              (newMonthlyCommits year) (entered st))
    as (mc' & st' & ks & Hrun & Hlen & Hks & Hadv & Hm & Ht & Hn & Hpp & Hno).
  rewrite Hrun. exists ks.
  destruct Hadv as (Hr & Hc & Hu & Hrepos & Hcd & Hl & He & Hy & Hsy & Hsc).
  unfold entered in *.
  cbn [requests console username repos years selectedYear showChart error
       loading commitData setError setShowChart setCommitData setLoading]
    in *.
  split; [assumption | split; [assumption|]].
  split; [assumption | split; [assumption|]].
  split; [tauto | split; [tauto | split; [assumption|]]].
  split; [| split].
  - apply Hn. unfold nonNegative.
    eapply Forall_impl; [apply newMonthlyCommits_zero|].
    simpl. intros d ->. lia.
  - intros Hh. specialize (Hpp Hh).
    rewrite (totalCommits_zero _ (newMonthlyCommits_zero year)) in Hpp. lia.
  - assumption.
Qed.

(** The same run for a year with an invalid date: the outer [catch]. *)
Lemma fetchCommits_invalid year customRepos st e :
  customRepos ≠ [] →
  dateWindow year (clock (requests st)) (getFullYear (clock (requests st)))
    = inl e →
  fetchCommits year customRepos st
  = setLoading false
      (setError (messageOr "Failed to fetch commit data" e) (entered st)).
Proof.
  intros Hne Hw. unfold fetchCommits.
  destruct customRepos as [|repo rest]; [contradiction|].
  change (length (repo :: rest) =? 0)%nat with false. cbv iota.
  fold (entered st). change (requests (entered st)) with (requests st).
  change (take 25 (repo :: rest)) with (repo :: take 24 rest).
  rewrite (forRepos_invalid _ _ _ e _ _ _ _ Hw). reflexivity.
Qed.

(** Whatever the dates, a loop that ends without a throw has counted at
    most 500 commits per repository, if pages hold at most 100. *)
Lemma forRepos_total year now currentYear rs mc st mc1 st1 :
  honoursPerPage →
  forRepos year now currentYear rs mc st = (inr mc1, st1) →
  totalCommits mc1 <= totalCommits mc + 500 * Z.of_nat (length rs).
Proof.
  intros Hh Hrun.
  destruct (dateWindow year now currentYear) as [e|[since until]] eqn:Hw.
  - destruct rs as [|repo rs].
    + injection Hrun as <- _. simpl. lia.
    + rewrite (forRepos_invalid _ _ _ e) in Hrun by assumption.
      discriminate.
  - destruct (forRepos_spec year now currentYear since until rs Hw mc st)
      as (mc' & st' & ks & Hrun' & _ & _ & _ & _ & _ & _ & Hpp & _).
    rewrite Hrun in Hrun'. injection Hrun' as -> _. apply Hpp, Hh.
Qed.

(** The buckets of a run do not depend on what the cells of the component
    held before. *)
Lemma sameWorld_fetchCommits year customRepos st1 st2 :
  customRepos ≠ [] →
  sameWorld st1 st2 →
  commitData (fetchCommits year customRepos st1)
  = commitData (fetchCommits year customRepos st2).
Proof.
  intros Hne Hs. unfold fetchCommits.
  destruct customRepos as [|repo rest]; [contradiction|].
  change (length (repo :: rest) =? 0)%nat with false. cbv iota.
  fold (entered st1). fold (entered st2).
  change (requests (entered st1)) with (requests st1).
  change (requests (entered st2)) with (requests st2).
  assert (Hs' : sameWorld (entered st1) (entered st2)) by exact Hs.
  destruct Hs as [_ Hr]. rewrite <- Hr.
  set (now := clock (requests st1)).
  destruct (dateWindow year now (getFullYear now)) as [e|[since until]] eqn:Hw.
  - change (take 25 (repo :: rest)) with (repo :: take 24 rest).
    rewrite !(forRepos_invalid _ _ _ e) by assumption. reflexivity.
  - destruct (sameWorld_forRepos year now (getFullYear now)
                (take 25 (repo :: rest)) (newMonthlyCommits year)
                _ _ Hs') as [Heq _].
    destruct (forRepos_spec year now _ since until (take 25 (repo :: rest))
                Hw (newMonthlyCommits year) (entered st1))
      as (mc1 & st1' & ks1 & Hrun1 & _).
    destruct (forRepos_spec year now _ since until (take 25 (repo :: rest))
                Hw (newMonthlyCommits year) (entered st2))
      as (mc2 & st2' & ks2 & Hrun2 & _).
    rewrite Hrun1, Hrun2 in Heq |- *. simpl in Heq. injection Heq as ->.
    reflexivity.
Qed.

End Aggregation.

(** * The properties of the specification *)

Section Claims.

Context `{Env}.

Implicit Types (mc : list CommitData) (st : State) (repo : Repo).

(** C1 (as amended): for every repository the pages are requested one
    after the other from page 1, at most 5 of them, and the page after a
    page is requested exactly when that page was a success holding exactly
    100 commits, all counted, and was not the fifth.  In particular, for a
    repository whose pages return 100, 100 and 30 commits, each with a
    date in one of the months of the buckets, exactly the pages 1, 2 and 3
    are requested, nothing is logged, 230 commits are added, and every
    bucket grows by the number of those commits authored in its month. *)
Theorem C1_pagination repo since until mc st :
  let url := commitsUrl repo since until (username st) in
  let result := processRepo repo since until mc st in
  (∃ k : nat,
     (1 <= k <= 5)%nat
     ∧ requests result.2 = requests st ++ map url (seq 1 k)
     ∧ ∀ j, (j < k)%nat →
         (S j < k)%nat ↔
         (S j < 5)%nat
         ∧ fullPage (length mc)
             (httpCommits (requests st ++ map url (seq 1 j)) (url (S j)))
           = true)
  ∧ ∀ status1 status2 status3 l1 l2 l3,
      httpCommits (requests st) (url 1%nat) = Responded status1 (inr l1) →
      httpCommits (requests st ++ [url 1%nat]) (url 2%nat)
        = Responded status2 (inr l2) →
      httpCommits (requests st ++ [url 1%nat; url 2%nat]) (url 3%nat)
        = Responded status3 (inr l3) →
      ok status1 = true → ok status2 = true → ok status3 = true →
      length l1 = 100%nat → length l2 = 100%nat → length l3 = 30%nat →
      forallb (countable (length mc)) (l1 ++ l2 ++ l3) = true →
      requests result.2 = requests st ++ [url 1%nat; url 2%nat; url 3%nat]
      ∧ console result.2 = console st
      ∧ totalCommits result.1 = totalCommits mc + 230
      ∧ ∀ i d, mc !! i = Some d →
          result.1 !! i
          = Some (mkCommitData (month d)
                    (commits d + authoredIn i (l1 ++ l2 ++ l3))).
Proof.
  intros url result. subst result url. split.
  - destruct (processRepo_spec repo since until mc st)
      as (k & Hk & Hadv & Hpages & _).
    exists k. split; [assumption | split; [apply Hadv | exact Hpages]].
  - intros status1 status2 status3 l1 l2 l3 H1 H2 H3 Hok1 Hok2 Hok3
           Hl1 Hl2 Hl3 Hall.
    apply forEach_countable in Hall as [mc3 Hfe].
    pose proof Hfe as Hfe'. rewrite forEach_app in Hfe'.
    destruct (forEach l1 mc) as [[e|] mc1] eqn:Hfe1; [discriminate Hfe'|].
    rewrite forEach_app in Hfe'.
    destruct (forEach l2 mc1) as [[e|] mc2] eqn:Hfe2; [discriminate Hfe'|].
    unfold processRepo.
    rewrite (whileLoop_step _ _ _ _ _ _ _ _ _ H1 Hok1 Hfe1), Hl1.
    cbn [Nat.ltb Nat.leb Nat.eqb].
    rewrite (whileLoop_step repo since until 2 mc1 (issue _ st)
               status2 l2 mc2 H2 Hok2 Hfe2), Hl2.
    cbn [Nat.ltb Nat.leb Nat.eqb].
    rewrite (whileLoop_step repo since until 3 mc2
               (issue _ (issue _ st)) status3 l3 mc3);
      [| cbn [requests username issue]; rewrite <- app_assoc; exact H3
       | exact Hok3 | exact Hfe'].
    rewrite Hl3.
    cbn [Nat.ltb Nat.leb Nat.eqb]. rewrite whileLoop_false.
    cbn [fst snd requests console issue].
    destruct (forEach_counts _ _ _ Hfe) as [Htot Hlook].
    rewrite !length_app, Hl1, Hl2, Hl3 in Htot.
    split; [rewrite <- !app_assoc; reflexivity|].
    split; [reflexivity|]. split; [lia | exact Hlook].
Qed.

(** C2: a commit page that is not a success ends the pages of its
    repository and throws nothing: after a 404 or a 409 nothing is logged,
    after any other status a warning is; what is thrown while a
    repository is processed (a rejected request, say) is caught and
    logged; in each case the loop goes on with the repositories that
    remain and the run ends with its 12 buckets shown and no error.  A
    repository whose first page is a 404 adds no commit and costs one
    request. *)
Theorem C2_failure_isolation :
  (∀ repo since until page mc st status body,
     let u := commitsUrl repo since until (username st) page in
     httpCommits (requests st) u = Responded status body →
     ok status = false →
     whileLoop repo since until page true mc st
     = (None, mc,
        if (status =? 409) || (status =? 404) then issue u st
        else log (ConsoleWarn ("Error fetching commits for " +:+ name repo
                               +:+ ": " +:+ pretty status))
                 (issue u st)))
  ∧ (∀ repo since until mc st e mc' st',
       whileLoop repo since until 1 true mc st = (Some e, mc', st') →
       processRepo repo since until mc st
       = (mc', log (ConsoleError ("Error processing repo " +:+ name repo
                                  +:+ ":") e) st'))
  ∧ (∀ repo since until mc st e,
       let u := commitsUrl repo since until (username st) 1 in
       httpCommits (requests st) u = Rejected e →
       processRepo repo since until mc st
       = (mc, log (ConsoleError ("Error processing repo " +:+ name repo
                                 +:+ ":") e)
                (log (ConsoleError "Error fetching data:" e) (issue u st))))
  ∧ (∀ year now currentYear since until repo rest mc st,
       dateWindow year now currentYear = inr (since, until) →
       forRepos year now currentYear (repo :: rest) mc st
       = forRepos year now currentYear rest
           (processRepo repo since until mc st).1
           (processRepo repo since until mc st).2
       ∧ ∃ mc' st',
           forRepos year now currentYear (repo :: rest) mc st
           = (inr mc', st'))
  ∧ (∀ year customRepos st since until,
       customRepos ≠ [] →
       dateWindow year (clock (requests st))
                  (getFullYear (clock (requests st))) = inr (since, until) →
       let st' := fetchCommits year customRepos st in
       showChart st' = true ∧ error st' = ""
       ∧ length (commitData st') = 12%nat)
  ∧ (∀ repo since until mc st body,
       let u := commitsUrl repo since until (username st) 1 in
       httpCommits (requests st) u = Responded 404 body →
       processRepo repo since until mc st = (mc, issue u st)).
Proof.
  split; [| split; [| split; [| split; [| split]]]].
  - intros repo since until page mc st status body u Hanswer Hok.
    exact (whileLoop_stop _ _ _ _ _ _ _ body Hanswer Hok).
  - intros repo since until mc st e mc' st' Hrun.
    unfold processRepo. rewrite Hrun. reflexivity.
  - intros repo since until mc st e u Hanswer.
    unfold processRepo.
    rewrite (whileLoop_rejected _ _ _ _ _ _ _ Hanswer). reflexivity.
  - intros year now currentYear since until repo rest mc st Hw. split.
    + simpl. rewrite Hw.
      destruct (processRepo repo since until mc st). reflexivity.
    + destruct (forRepos_spec year now currentYear since until
                  (repo :: rest) Hw mc st) as (mc' & st' & _ & Hrun & _).
      eauto.
  - intros year customRepos st since until Hne Hw st'.
    destruct (fetchCommits_valid year customRepos st since until Hne Hw)
      as (ks & _ & _ & _ & _ & _ & (Hsc & He & _) & Hm & _).
    split; [assumption | split; [assumption|]]. subst st'.
    rewrite <- (length_map month), Hm, length_map.
    apply newMonthlyCommits_length.
  - intros repo since until mc st body u Hanswer.
    unfold processRepo.
    rewrite (whileLoop_stop _ _ _ _ _ _ 404 body Hanswer) by reflexivity.
    reflexivity.
Qed.

(** C3 (as amended): called with an empty list of repositories,
    [fetchCommits] returns at once: it issues no request and reports no
    error, and it produces no buckets either, the state being left as it
    was.  A search that finds an account without repositories does not
    call it, and reports "No repositories found for this user" with the
    commit data empty and the chart hidden, after the two requests of the
    setup phase. *)
Theorem C3_empty_list year st :
  fetchCommits year [] st = st
  ∧ ∀ status userData status',
      username st ≠ "" →
      httpUser (requests st) (GetUser (username st))
        = Responded status (inr userData) →
      ok status = true →
      httpRepos (requests st ++ [GetUser (username st)])
                (GetRepos (username st) 100)
        = Responded status' (inr []) →
      ok status' = true →
      let st' := fetchReposAndYears st in
      error st' = "No repositories found for this user"
      ∧ commitData st' = [] ∧ showChart st' = false ∧ loading st' = false
      ∧ requests st'
        = requests st ++ [GetUser (username st); GetRepos (username st) 100].
Proof.
  split; [reflexivity|].
  intros status userData status' Hname Huser Hok Hrepos Hok'.
  unfold fetchReposAndYears, setup, fetchWithAuth.
  rewrite bool_decide_eq_false_2 by assumption.
  cbn [requests username setShowChart setYears setRepos setCommitData
       setError setLoading setSelectedYear issue].
  rewrite Huser, Hok.
  cbn [requests username setShowChart setYears setRepos setCommitData
       setError setLoading setSelectedYear issue negb].
  rewrite Hrepos, Hok'. cbn. rewrite <- app_assoc. repeat split.
Qed.

(** C4 (as amended): every commit request of a run carries as [since] the
    1st of January 00:00:00 of the target year, and as [until] the 31st of
    December 23:59:59 of that year, replaced by "now" exactly when the
    target year is the current year and that upper bound lies after "now".
    So when the target year is the current year the upper bound passed
    never exceeds the current instant; for any other year it is passed as
    it is. *)
Theorem C4_date_window year customRepos st :
  let now := clock (requests st) in
  let currentYear := getFullYear now in
  ∃ new,
    requests (fetchCommits year customRepos st) = requests st ++ new
    ∧ ∀ u, u ∈ new →
        ∃ (repoName : string) page since upper until,
          u = GetCommits (username st) repoName since until 100 page
          ∧ dateLocal year 0 1 0 0 0 = Some since
          ∧ dateLocal year 11 31 23 59 59 = Some upper
          ∧ until = (if (year =? currentYear) && (now <? upper)
                     then now else upper)
          ∧ (year = currentYear → now < upper → until = now)
          ∧ (year = currentYear → until <= now)
          ∧ (year ≠ currentYear → until = upper).
Proof.
  intros now currentYear.
  destruct customRepos as [|repo rest].
  { exists []. rewrite app_nil_r. split; [reflexivity|].
    intros u []%elem_of_nil. }
  destruct (dateWindow year now currentYear) as [e|[since until]] eqn:Hw.
  { exists [].
    rewrite (fetchCommits_invalid _ _ _ e) by (assumption || discriminate).
    rewrite app_nil_r. split; [reflexivity|]. intros u []%elem_of_nil. }
  destruct (fetchCommits_valid year (repo :: rest) st since until)
    as (ks & _ & _ & Hr & _); [discriminate | assumption |].
  eexists. split; [exact Hr|].
  intros u (repo' & page & _ & _ & ->)%pagesOf_elem.
  unfold dateWindow in Hw.
  destruct (dateLocal year 0 1 0 0 0) as [since'|]; [|discriminate].
  destruct (dateLocal year 11 31 23 59 59) as [upper|]; [|discriminate].
  injection Hw as -> <-.
  exists (name repo'), page, since, upper,
    (if (year =? currentYear) && (now <? upper) then now else upper).
  split; [reflexivity|]. split; [reflexivity|]. split; [reflexivity|].
  split; [reflexivity|].
  destruct (Z.eqb_spec year currentYear), (Z.ltb_spec now upper); simpl;
    repeat split; intros; try lia; try contradiction; reflexivity.
Qed.

(** C5: the loop over the pages of a repository ends, after at least one
    and at most 5 requests, for consecutive pages from page 1; so that,
    with at most 100 items on a page, at most 500 commits are counted for
    the repository.  What lies beyond is dropped without a word: when the
    five pages are full, the loop ends after the fifth without a throw
    and without a line on the console, 500 commits counted. *)
Theorem C5_page_cap repo since until mc st :
  let url := commitsUrl repo since until (username st) in
  let result := processRepo repo since until mc st in
  (∃ k : nat, (1 <= k <= 5)%nat
              ∧ requests result.2 = requests st ++ map url (seq 1 k))
  ∧ (honoursPerPage → totalCommits result.1 <= totalCommits mc + 500)
  ∧ ((∀ j, (j < 5)%nat →
        fullPage (length mc)
          (httpCommits (requests st ++ map url (seq 1 j)) (url (S j)))
        = true) →
     (whileLoop repo since until 1 true mc st).1.1 = None
     ∧ requests result.2 = requests st ++ map url (seq 1 5)
     ∧ console result.2 = console st
     ∧ totalCommits result.1 = totalCommits mc + 500).
Proof.
  intros url result. subst result url.
  destruct (processRepo_spec repo since until mc st)
    as (k & Hk & Hadv & _ & _ & _ & _ & Hpp & _).
  split; [exists k; split; [assumption | apply Hadv]|].
  split; [intros Hh; specialize (Hpp Hh); lia|].
  intros Hfull.
  destruct (whileLoop_full repo since until 4 1 mc st)
    as (mc4 & st4 & Hrun & Hr & Hc & Hu & Hlen & Htot);
    [lia | intros j Hj; apply Hfull; lia |].
  specialize (Hfull 4%nat ltac:(lia)).
  rewrite <- Hlen, <- Hr, <- Hu in Hfull.
  destruct (fullPage_inv _ _ Hfull)
    as (status & cs & Hanswer & Hok & Hlen5 & Hall).
  apply forEach_countable in Hall as [mc5 Hfe].
  destruct (forEach_counts _ _ _ Hfe) as [Htot5 _].
  unfold processRepo. rewrite Hrun. simpl Nat.add.
  rewrite (whileLoop_step repo since until 5 mc4 st4 status cs mc5
             Hanswer Hok Hfe).
  cbn [Nat.ltb Nat.leb]. rewrite whileLoop_false.
  cbn [fst snd requests console issue].
  split; [reflexivity|].
  split; [rewrite Hr, Hu, <- app_assoc; reflexivity|].
  split; [assumption | lia].
Qed.

(** C6: a run queries commits only for the first 25 repositories of its
    input, in input order: it is the run over the first 25, the requests
    it issues are page requests for repositories at the indices 0 to 24,
    and, when the dates of the year are valid, they are the requests of
    the pages 1 to [k] (with [k] from 1 to 5) of each of these
    repositories in turn.  What lies beyond index 24 changes nothing. *)
Theorem C6_repository_cap year customRepos st :
  let st' := fetchCommits year customRepos st in
  let now := clock (requests st) in
  st' = fetchCommits year (take 25 customRepos) st
  ∧ ∃ new,
      requests st' = requests st ++ new
      ∧ (∀ u, u ∈ new →
           ∃ (i : nat) repo since until page,
             (i < 25)%nat ∧ customRepos !! i = Some repo
             ∧ u = GetCommits (username st) (name repo) since until 100 page)
      ∧ match dateWindow year now (getFullYear now) with
        | inr (since, until) =>
            ∃ ks, length ks = length (take 25 customRepos)
                  ∧ Forall (λ k, 1 <= k <= 5)%nat ks
                  ∧ new = pagesOf (username st) since until
                            (take 25 customRepos) ks
        | inl _ => new = []
        end.
Proof.
  intros st' now. subst st'. split.
  { unfold fetchCommits. rewrite take_idemp.
    destruct customRepos as [|repo rest]; reflexivity. }
  destruct customRepos as [|repo rest].
  { exists []. rewrite app_nil_r. split; [reflexivity|].
    split; [intros u []%elem_of_nil|].
    destruct (dateWindow _ _ _) as [e|[since until]]; [reflexivity|].
    exists []. repeat split. constructor. }
  destruct (dateWindow year now (getFullYear now)) as [e|[since until]] eqn:Hw.
  { exists [].
    rewrite (fetchCommits_invalid _ _ _ e) by (assumption || discriminate).
    rewrite app_nil_r. split; [reflexivity|].
    split; [intros u []%elem_of_nil | reflexivity]. }
  destruct (fetchCommits_valid year (repo :: rest) st since until)
    as (ks & Hlen & Hks & Hr & _); [discriminate | assumption |].
  eexists. split; [exact Hr|]. split.
  - intros u (repo' & page & Hin & _ & ->)%pagesOf_elem.
    apply elem_of_take in Hin as (i & Hi & Hlt).
    exists i, repo', since, until, page. tauto.
  - exists ks. tauto.
Qed.

(** C7: provided the API returns at most [per_page] items on a page, the
    sum of the monthly counts a run ends with is at most the number of
    repositories processed times 5 pages times 100 items; and so it is
    throughout: after any first part of the repositories processed, the
    buckets hold at most 500 commits for each repository of that part, and
    the run goes on from there. *)
Theorem C7_sum_bound year customRepos st :
  honoursPerPage →
  customRepos ≠ [] →
  totalCommits (commitData (fetchCommits year customRepos st))
  <= Z.of_nat (length (take 25 customRepos)) * 5 * 100
  ∧ ∀ processed rest now currentYear mc1 st1,
      take 25 customRepos = processed ++ rest →
      forRepos year now currentYear processed (newMonthlyCommits year)
               (entered st) = (inr mc1, st1) →
      totalCommits mc1 <= Z.of_nat (length processed) * 5 * 100
      ∧ forRepos year now currentYear (take 25 customRepos)
                 (newMonthlyCommits year) (entered st)
        = forRepos year now currentYear rest mc1 st1.
Proof.
  intros Hh Hne. split.
  - set (now := clock (requests st)).
    destruct (dateWindow year now (getFullYear now))
      as [e|[since until]] eqn:Hw.
    + rewrite (fetchCommits_invalid _ _ _ e) by assumption.
      cbn. lia.
    + destruct (fetchCommits_valid year customRepos st since until Hne Hw)
        as (ks & _ & _ & _ & _ & _ & _ & _ & _ & Hpp & _).
      specialize (Hpp Hh). lia.
  - intros processed rest now currentYear mc1 st1 Hsplit Hrun.
    pose proof (forRepos_total _ _ _ _ _ _ _ _ Hh Hrun) as Ht.
    rewrite (totalCommits_zero _ (newMonthlyCommits_zero year)) in Ht.
    split; [lia|]. rewrite Hsplit, forRepos_app, Hrun. reflexivity.
Qed.

(** C8: a run over a list of repositories that is not empty, for a year
    whose dates are valid, ends with exactly 12 buckets, in the order of
    the months 0 to 11 of that year and labelled as such; they are made
    anew for the run, so that they do not depend on what the component
    held before; every count is a non-negative integer, and zero when the
    API had no commit to return; and the chart is set to be shown, where
    the test that every count is zero tells "no commits" from a chart. *)
Theorem C8_result_shape year customRepos st since until :
  customRepos ≠ [] →
  dateWindow year (clock (requests st)) (getFullYear (clock (requests st)))
    = inr (since, until) →
  let st' := fetchCommits year customRepos st in
  length (commitData st') = 12%nat
  ∧ map month (commitData st')
    = map (λ i : nat, monthShort (dateLocal year (Z.of_nat i) 1 0 0 0))
          (seq 0 12)
  ∧ (∀ d, d ∈ commitData st' → 0 <= commits d)
  ∧ (noCommitAnywhere → ∀ d, d ∈ commitData st' → commits d = 0)
  ∧ (∀ st2, sameWorld st st2 →
       commitData (fetchCommits year customRepos st2) = commitData st')
  ∧ (showChart st' = true ∧ error st' = "" ∧ loading st' = false)
  ∧ (noCommits (commitData st') = false ↔
     ∃ d, d ∈ commitData st' ∧ commits d ≠ 0)
  ∧ (years st ≠ [] →
     chartView st'
     = if noCommits (commitData st') then NoCommitsFound
       else Chart (commitData st') (totalCommits (commitData st'))
              (default "" (month <$> mostActive (commitData st')))).
Proof.
  intros Hne Hw st'.
  destruct (fetchCommits_valid year customRepos st since until Hne Hw)
    as (ks & _ & _ & _ & _ & (_ & _ & Hy & _) & (Hsc & He & Hl) & Hm & Hn
        & _ & Hno).
  fold st' in Hy, Hsc, He, Hl, Hm, Hn, Hno.
  assert (Hlen : length (commitData st') = 12%nat).
  { rewrite <- (length_map month), Hm, length_map.
    apply newMonthlyCommits_length. }
  split; [assumption|].
  split; [rewrite Hm; unfold newMonthlyCommits; rewrite map_map; reflexivity|].
  split; [intros d Hd; exact (proj1 (Forall_forall _ _) Hn d Hd)|].
  split.
  { intros Hh d Hd. rewrite (Hno Hh) in Hd.
    exact (proj1 (Forall_forall _ _) (newMonthlyCommits_zero year) d Hd). }
  split.
  { intros st2 Hs. symmetry. apply sameWorld_fetchCommits; assumption. }
  split; [tauto|].
  split.
  { apply noCommits_false. }
  intros Hyears. unfold chartView. rewrite Hy, Hsc, Hlen.
  destruct (years st) as [|y ys]; [contradiction|]. simpl.
  destruct (noCommits (commitData st')); [reflexivity|].
  destruct (commitData st') as [|d0 cd]; [discriminate|]. reflexivity.
Qed.

(** C9: an error of the setup phase ends the search with one message in
    the error banner, the loading flag down, the chart hidden, the commit
    data empty and no commit request issued.  On the profile request a 404
    gives "User not found", a 401 "Invalid GitHub token. Check your
    configuration.", a 403 "API rate limit exceeded or authentication
    issue" and any other status that is not a success "GitHub API error:"
    with the status; on the request for the repositories a status that is
    not a success gives "Failed to fetch repositories:" with the status.
    The five messages are pairwise distinct. *)
Theorem C9_setup_errors st :
  username st ≠ "" →
  let u := username st in
  let st' := fetchReposAndYears st in
  (∀ status body,
     httpUser (requests st) (GetUser u) = Responded status body →
     ok status = false →
     error st'
     = (if status =? 404 then "User not found"
        else if status =? 401 then
          "Invalid GitHub token. Check your configuration."
        else if status =? 403 then
          "API rate limit exceeded or authentication issue"
        else "GitHub API error: " +:+ pretty status)
     ∧ errorBanner st' = Some (error st')
     ∧ requests st' = requests st ++ [GetUser u]
     ∧ loading st' = false ∧ showChart st' = false ∧ commitData st' = [])
  ∧ (∀ status userData status' body,
       httpUser (requests st) (GetUser u)
         = Responded status (inr userData) →
       ok status = true →
       httpRepos (requests st ++ [GetUser u]) (GetRepos u 100)
         = Responded status' body →
       ok status' = false →
       error st' = "Failed to fetch repositories: " +:+ pretty status'
       ∧ errorBanner st' = Some (error st')
       ∧ requests st' = requests st ++ [GetUser u; GetRepos u 100]
       ∧ loading st' = false ∧ showChart st' = false ∧ commitData st' = [])
  ∧ ∀ status status' : Z,
      NoDup ["User not found";
             "Invalid GitHub token. Check your configuration.";
             "API rate limit exceeded or authentication issue";
             "GitHub API error: " +:+ pretty status;
             "Failed to fetch repositories: " +:+ pretty status'].
Proof.
  intros Hname u st'. subst u st'. split; [| split].
  - intros status body Huser Hok.
    unfold fetchReposAndYears, setup, fetchWithAuth.
    rewrite bool_decide_eq_false_2 by assumption.
    cbn [requests username setShowChart setYears setRepos setCommitData
         setError setLoading].
    rewrite Huser, Hok.
    cbn [negb requests error loading showChart commitData setLoading
         setError issue].
    assert (Hmsg : messageOr "An error occurred" (userError status)
                   = (if status =? 404 then "User not found"
                      else if status =? 401 then
                        "Invalid GitHub token. Check your configuration."
                      else if status =? 403 then
                        "API rate limit exceeded or authentication issue"
                      else "GitHub API error: " +:+ pretty status)).
    { unfold userError.
      destruct (Z.eqb_spec status 404), (Z.eqb_spec status 403),
               (Z.eqb_spec status 401); try reflexivity; lia. }
    split; [exact Hmsg|]. split; [| repeat split].
    unfold errorBanner. cbn [error setLoading setError]. rewrite Hmsg.
    destruct (status =? 404), (status =? 401), (status =? 403); reflexivity.
  - intros status userData status' body Huser Hok Hrepos Hok'.
    unfold fetchReposAndYears, setup, fetchWithAuth.
    rewrite bool_decide_eq_false_2 by assumption.
    cbn [requests username setShowChart setYears setRepos setCommitData
         setError setLoading].
    rewrite Huser, Hok.
    cbn [requests username setShowChart setYears setRepos setCommitData
         setError setLoading setSelectedYear issue negb].
    rewrite Hrepos, Hok'.
    cbn [negb requests error loading showChart commitData setLoading
         setError issue setSelectedYear setYears messageOr reposError].
    rewrite <- app_assoc. repeat split.
  - intros status status'.
    repeat (apply NoDup_cons; split;
            [ rewrite ?elem_of_cons, elem_of_nil; simpl;
              intros H'; repeat destruct H' as [H'|H']; discriminate || exact H'
            | ]).
    apply NoDup_nil. exact I.
Qed.

End Claims.

(** ** The summary under the chart *)

Section Summary.

Implicit Types (data : list CommitData) (max : CommitData).

(** The reduction keeps its accumulator unless it meets a count that is
    strictly greater: its result is the accumulator, when no element
    exceeds it, or else the first element that reaches the greatest
    count. *)
Lemma reduce_max data :
  ∀ max,
    let result :=
      fold_left (λ max d, if commits max <? commits d then d else max)
                data max in
    (result = max ∧ ∀ d, d ∈ data → commits d <= commits max)
    ∨ ∃ i : nat,
        data !! i = Some result
        ∧ commits max < commits result
        ∧ (∀ j d, data !! j = Some d → commits d <= commits result)
        ∧ (∀ j d, (j < i)%nat → data !! j = Some d →
                  commits d < commits result).
Proof.
  induction data as [|x data IH]; intros max; simpl.
  - left. split; [reflexivity | intros d []%elem_of_nil].
  - destruct (Z.ltb_spec (commits max) (commits x)) as [Hlt|Hge].
    + right. destruct (IH x) as [[Heq Hall] | (i & Hi & Hgt & Hall & Hbefore)].
      * exists 0%nat. rewrite Heq. simpl.
        split; [reflexivity | split; [assumption | split]].
        -- intros [|j] d Hd; simpl in Hd.
           ++ injection Hd as <-. lia.
           ++ apply Hall. eapply list_elem_of_lookup_2, Hd.
        -- intros j d Hj. lia.
      * exists (S i). simpl.
        split; [assumption | split; [lia | split]].
        -- intros [|j] d Hd; simpl in Hd.
           ++ injection Hd as <-. lia.
           ++ eapply Hall, Hd.
        -- intros [|j] d Hj Hd; simpl in Hd.
           ++ injection Hd as <-. assumption.
           ++ eapply Hbefore; [|exact Hd]. lia.
    + destruct (IH max) as [[Heq Hall] | (i & Hi & Hgt & Hall & Hbefore)].
      * left. split; [assumption|].
        intros d [-> | Hd]%elem_of_cons; [assumption | apply Hall, Hd].
      * right. exists (S i). simpl.
        split; [assumption | split; [assumption | split]].
        -- intros [|j] d Hd; simpl in Hd.
           ++ injection Hd as <-. lia.
           ++ eapply Hall, Hd.
        -- intros [|j] d Hj Hd; simpl in Hd.
           ++ injection Hd as <-. lia.
           ++ eapply Hbefore; [|exact Hd]. lia.
Qed.

(** C10: whenever the chart is displayed, the month shown as the most
    active is the label of the earliest bucket, in the order of the
    months, whose count is the greatest: no bucket has more, and every
    bucket before it has strictly less. *)
Theorem C10_most_active st data total label :
  chartView st = Chart data total label →
  ∃ (i : nat) d,
    commitData st !! i = Some d
    ∧ label = month d
    ∧ (∀ j d', commitData st !! j = Some d' → commits d' <= commits d)
    ∧ (∀ j d', (j < i)%nat → commitData st !! j = Some d' →
               commits d' < commits d).
Proof.
  unfold chartView.
  destruct (_ && _); [|discriminate].
  destruct (noCommits _); [discriminate|].
  unfold mostActive.
  destruct (commitData st) as [|first rest] eqn:Hdata; [discriminate|].
  intros [= _ _ <-].
  pose proof (reduce_max (first :: rest) first) as Hmax.
  cbv zeta in Hmax. cbn [fold_left] in Hmax |- *.
  destruct Hmax as [[Heq Hall] | (i & Hi & _ & Hall & Hbefore)].
  - exists 0%nat, first. rewrite Heq.
    split; [reflexivity | split; [reflexivity | split]].
    + intros j d' Hd'. apply Hall. eapply list_elem_of_lookup_2, Hd'.
    + intros j d' Hj. lia.
  - exists i. eexists. split; [exact Hi|]. split; [reflexivity|].
    split; assumption.
Qed.

End Summary.

(** * Further properties of the component *)

(** ** The years offered *)

Lemma yearRange_lookup (createdYear currentYear : Z) (i : nat) :
  (i < Z.to_nat (currentYear - createdYear + 1))%nat →
  yearRange (Some createdYear) currentYear !! i
  = Some (currentYear - Z.of_nat i).
Proof.
  intros Hi. unfold yearRange.
  set (n := Z.to_nat (currentYear - createdYear + 1)) in *.
  rewrite reverse_lookup by (rewrite length_map, length_seq; exact Hi).
  rewrite length_map, length_seq, list_lookup_fmap.
  rewrite lookup_seq_lt by lia. simpl. f_equal. lia.
Qed.

Lemma yearRange_length (createdYear currentYear : Z) :
  length (yearRange (Some createdYear) currentYear)
  = Z.to_nat (currentYear - createdYear + 1).
Proof.
  unfold yearRange. rewrite length_reverse, length_map, length_seq.
  reflexivity.
Qed.

(** X1: the years offered are the years from the year the account was
    created to the current year, each once, the current year first and the
    others in descending order; there is none when the creation date does
    not parse, or lies in a later year than the current one. *)
Theorem X1_years_offered (createdYear currentYear : Z) :
  yearRange None currentYear = []
  ∧ (∀ y, y ∈ yearRange (Some createdYear) currentYear
          ↔ createdYear <= y <= currentYear)
  ∧ (∀ i : nat,
       yearRange (Some createdYear) currentYear !! i
       = if (Z.of_nat i <=? currentYear - createdYear)
         then Some (currentYear - Z.of_nat i) else None)
  ∧ NoDup (yearRange (Some createdYear) currentYear)
  ∧ (currentYear < createdYear ↔ yearRange (Some createdYear) currentYear = []).
Proof.
  assert (Hlook : ∀ i : nat,
            yearRange (Some createdYear) currentYear !! i
            = if (Z.of_nat i <=? currentYear - createdYear)
              then Some (currentYear - Z.of_nat i) else None).
  { intros i. destruct (Z.leb_spec (Z.of_nat i) (currentYear - createdYear)).
    - apply yearRange_lookup. lia.
    - apply lookup_ge_None. rewrite yearRange_length. lia. }
  split; [reflexivity|]. split; [| split; [exact Hlook | split]].
  - intros y. rewrite list_elem_of_lookup. split.
    + intros [i Hi]. rewrite Hlook in Hi.
      destruct (Z.leb_spec (Z.of_nat i) (currentYear - createdYear));
        [|discriminate].
      injection Hi as <-. lia.
    + intros Hy. exists (Z.to_nat (currentYear - y)). rewrite Hlook.
      destruct (Z.leb_spec (Z.of_nat (Z.to_nat (currentYear - y)))
                           (currentYear - createdYear)); [|lia].
      f_equal. lia.
  - apply NoDup_alt. intros i j y Hi Hj. rewrite Hlook in Hi, Hj.
    destruct (Z.of_nat i <=? _); [|discriminate].
    destruct (Z.of_nat j <=? _); [|discriminate].
    injection Hi as Hi. injection Hj as Hj. lia.
  - rewrite <- length_zero_iff_nil, yearRange_length. lia.
Qed.

(** The first and the last year offered. *)
Lemma yearRange_ends (createdYear currentYear : Z) :
  (createdYear <= currentYear →
   yearRange (Some createdYear) currentYear !! 0%nat = Some currentYear)
  ∧ (createdYear <= currentYear →
     last (yearRange (Some createdYear) currentYear) = Some createdYear)
  ∧ length (yearRange (Some createdYear) currentYear)
    = Z.to_nat (currentYear - createdYear + 1).
Proof.
  split; [| split; [| apply yearRange_length]].
  - intros Hle. rewrite yearRange_lookup by lia. f_equal. lia.
  - intros Hle. rewrite last_lookup, yearRange_length.
    rewrite yearRange_lookup by lia. f_equal. lia.
Qed.

(** ** What the handlers leave in the cells *)

(** Reads the cells of a state built by the setters. *)
Ltac cells :=
  cbn [requests username console repos commitData loading error years
       selectedYear showChart setShowChart setYears setRepos setCommitData
       setError setLoading setSelectedYear issue log negb].

Section Cells.

Context `{Env}.

Implicit Types (st : State) (customRepos : list Repo).

(** The only thrown value of [dateWindow] is the error of [toISOString]. *)
Lemma dateWindow_inl year now currentYear e :
  dateWindow year now currentYear = inl e →
  e = rangeError
  ∧ (dateLocal year 0 1 0 0 0 = None ∨ dateLocal year 11 31 23 59 59 = None).
Proof.
  unfold dateWindow. destruct (dateLocal year 0 1 0 0 0);
    [destruct (dateLocal year 11 31 23 59 59); [discriminate|] |];
    intros [= <-]; tauto.
Qed.

(** A run changes neither the user name, nor the repositories, nor the
    years offered, nor the year chosen. *)
Lemma fetchCommits_kept year customRepos st :
  let st' := fetchCommits year customRepos st in
  username st' = username st ∧ repos st' = repos st
  ∧ years st' = years st ∧ selectedYear st' = selectedYear st.
Proof.
  intros st'. subst st'.
  destruct customRepos as [|repo rest]; [repeat split|].
  set (now := clock (requests st)).
  destruct (dateWindow year now (getFullYear now))
    as [e|[since until]] eqn:Hw.
  - rewrite (fetchCommits_invalid _ _ _ e) by (assumption || discriminate).
    repeat split.
  - destruct (fetchCommits_valid year (repo :: rest) st since until)
      as (ks & _ & _ & _ & _ & Hkept & _); [discriminate | assumption |].
    exact Hkept.
Qed.

(** How a run over a list that is not empty ends: with the chart, or with
    the error of an invalid date. *)
Lemma fetchCommits_outcome year customRepos st :
  customRepos ≠ [] →
  let st' := fetchCommits year customRepos st in
  loading st' = false
  ∧ ((showChart st' = true ∧ error st' = ""
      ∧ length (commitData st') = 12%nat)
     ∨ (showChart st' = false ∧ error st' = "Invalid time value"
        ∧ commitData st' = [] ∧ requests st' = requests st
        ∧ console st' = console st)).
Proof.
  intros Hne st'. subst st'.
  set (now := clock (requests st)).
  destruct (dateWindow year now (getFullYear now))
    as [e|[since until]] eqn:Hw.
  - rewrite (fetchCommits_invalid _ _ _ e) by assumption.
    apply dateWindow_inl in Hw as [-> _].
    split; [reflexivity | right; repeat split].
  - destruct (fetchCommits_valid year customRepos st since until Hne Hw)
      as (ks & _ & _ & _ & _ & _ & (Hsc & He & Hl) & Hm & _).
    split; [assumption | left].
    split; [assumption | split; [assumption|]].
    rewrite <- (length_map month), Hm, length_map.
    apply newMonthlyCommits_length.
Qed.

(** The three ways a search with a user name ends: the setup phase throws;
    the account has no repository; or the aggregation runs for the current
    year. *)
Lemma search_outcome st :
  username st ≠ "" →
  let u := username st in
  let st' := fetchReposAndYears st in
  (∃ e st1 new,
     st' = setLoading false (setError (messageOr "An error occurred" e) st1)
     ∧ (new = [GetUser u] ∨ new = [GetUser u; GetRepos u 100])
     ∧ requests st1 = requests st ++ new
     ∧ (∃ lines, console st1 = console st ++ lines)
     ∧ username st1 = u ∧ repos st1 = [] ∧ commitData st1 = []
     ∧ showChart st1 = false)
  ∨ (∃ st1,
       st' = setError "No repositories found for this user"
               (setLoading false st1)
       ∧ requests st1 = requests st ++ [GetUser u; GetRepos u 100]
       ∧ console st1 = console st
       ∧ username st1 = u ∧ repos st1 = [] ∧ commitData st1 = []
       ∧ showChart st1 = false)
  ∨ (∃ currentYear reposData st1,
       st' = fetchCommits currentYear reposData st1
       ∧ reposData ≠ []
       ∧ requests st1 = requests st ++ [GetUser u; GetRepos u 100]
       ∧ console st1 = console st
       ∧ username st1 = u ∧ repos st1 = reposData
       ∧ selectedYear st1 = Some currentYear).
Proof.
  intros Hname u st'. subst u st'.
  unfold fetchReposAndYears, setup, fetchWithAuth.
  rewrite bool_decide_eq_false_2 by assumption.
  cbn [requests username setShowChart setYears setRepos setCommitData
       setError setLoading].
  destruct (httpUser _ _) as [e|status [e|userData]];
    [ | destruct (ok status) | destruct (ok status) ];
    cbn [negb requests username setSelectedYear setYears issue log].
  1-3,5: left; eexists _, _, [GetUser (username st)];
    (split; [reflexivity|]); (split; [left; reflexivity|]);
    (split; [reflexivity|]); cbn;
    (split; [eexists; try reflexivity; rewrite app_nil_r; reflexivity|]);
    repeat split.
  destruct (httpRepos _ _) as [e|status' [e|reposData]];
    [ | destruct (ok status') | destruct (ok status') ];
    cbn [negb requests username setSelectedYear setYears issue log].
  1-3,5: left; eexists _, _, [GetUser (username st); GetRepos (username st) 100];
    (split; [reflexivity|]); (split; [right; reflexivity|]); cbn;
    rewrite <- app_assoc;
    (split; [reflexivity|]);
    (split; [eexists; try reflexivity; rewrite app_nil_r; reflexivity|]);
    repeat split.
  destruct reposData as [|repo rest]; cbn [length Nat.ltb Nat.leb].
  - right; left. eexists. split; [reflexivity|]. cbn.
    rewrite <- app_assoc. repeat split.
  - right; right. eexists _, (repo :: rest), _. split; [reflexivity|].
    cbn. rewrite <- app_assoc. repeat split. discriminate.
Qed.

Lemma pagesOf_length username since until rs ks :
  length ks = length rs →
  Forall (λ k, 1 <= k <= 5)%nat ks →
  (length rs <= length (pagesOf username since until rs ks) <= 5 * length rs)%nat.
Proof.
  unfold pagesOf. revert ks.
  induction rs as [|repo rs IH]; intros [|k ks] Hlen Hks;
    try discriminate; simpl; [lia|].
  apply Forall_cons in Hks as [Hk Hks].
  injection Hlen as Hlen. specialize (IH ks Hlen Hks).
  rewrite length_app, length_map, length_seq. lia.
Qed.

(** The requests of a run: page requests for the user of the state, 100
    items a page, at most five for each repository processed. *)
Lemma fetchCommits_requests year customRepos st :
  let st' := fetchCommits year customRepos st in
  ∃ new,
    requests st' = requests st ++ new
    ∧ (∃ lines, console st' = console st ++ lines)
    ∧ (length new <= 5 * length (take 25 customRepos))%nat
    ∧ (error st' = "" → customRepos ≠ [] →
       length (take 25 customRepos) <= length new)%nat
    ∧ ∀ url, url ∈ new →
        isCommitsRequest url = true ∧ requestUser url = username st
        ∧ requestPerPage url = Some 100%nat.
Proof.
  intros st'. subst st'.
  destruct customRepos as [|repo rest].
  { exists []. rewrite app_nil_r. split; [reflexivity|].
    split; [exists []; rewrite app_nil_r; reflexivity|].
    split; [simpl; lia|]. split; [intros _ []; reflexivity|].
    intros url []%elem_of_nil. }
  set (now := clock (requests st)).
  destruct (dateWindow year now (getFullYear now))
    as [e|[since until]] eqn:Hw.
  - rewrite (fetchCommits_invalid _ _ _ e) by (assumption || discriminate).
    apply dateWindow_inl in Hw as [-> _].
    exists []. cbn [requests console error setLoading setError entered
                    setShowChart setCommitData messageOr rangeError].
    rewrite app_nil_r. split; [reflexivity|].
    split; [exists []; rewrite app_nil_r; reflexivity|].
    split; [simpl; lia|]. split; [discriminate|].
    intros url []%elem_of_nil.
  - destruct (fetchCommits_valid year (repo :: rest) st since until)
      as (ks & Hlen & Hks & Hr & Hc & _); [discriminate | assumption |].
    eexists. split; [exact Hr|]. split; [exact Hc|].
    pose proof (pagesOf_length (username st) since until _ ks Hlen Hks).
    split; [lia|]. split; [intros _ _; lia|].
    intros url (repo' & page & _ & _ & ->)%pagesOf_elem. repeat split.
Qed.

End Cells.

(** ** The flags, the error and the chart *)

Section Flags.

Context `{Env}.

Implicit Types (st : State) (customRepos : list Repo).

(** X4: whatever the API answers, a search with a user name, a run of the
    aggregation over a list of repositories that is not empty, and a change
    of year with repositories at hand, all end with the loading flag down;
    a search without a user name and a run over no repository leave the
    flag as it was. *)
Theorem X4_loading_ends :
  (∀ st, username st ≠ "" → loading (fetchReposAndYears st) = false)
  ∧ (∀ year customRepos st,
       customRepos ≠ [] → loading (fetchCommits year customRepos st) = false)
  ∧ (∀ year st, repos st ≠ [] → loading (handleYearChange year st) = false)
  ∧ (∀ st, username st = "" → loading (fetchReposAndYears st) = loading st)
  ∧ (∀ year st, loading (fetchCommits year [] st) = loading st).
Proof.
  split; [| split; [| split; [| split]]].
  - intros st Hname.
    destruct (search_outcome st Hname)
      as [(e & st1 & new & -> & _)
         | [(st1 & -> & _) | (cy & rd & st1 & -> & Hne & _)]];
      [reflexivity | reflexivity |].
    apply fetchCommits_outcome, Hne.
  - intros year customRepos st Hne. apply fetchCommits_outcome, Hne.
  - intros year st Hne. unfold handleYearChange.
    apply fetchCommits_outcome. exact Hne.
  - intros st Hname. unfold fetchReposAndYears.
    rewrite bool_decide_eq_true_2 by assumption. reflexivity.
  - reflexivity.
Qed.

(** X5: a search with a user name, like a run over a list of repositories
    that is not empty, ends in one of two ways: the chart flag is up, there
    is no error and the commit data are 12 buckets; or the chart flag is
    down and the commit data are empty.  So no chart is ever displayed
    together with an error message. *)
Theorem X5_chart_or_error :
  (∀ year customRepos st,
     customRepos ≠ [] →
     let st' := fetchCommits year customRepos st in
     (showChart st' = true ∧ error st' = ""
      ∧ length (commitData st') = 12%nat)
     ∨ (showChart st' = false ∧ commitData st' = []))
  ∧ (∀ st,
       username st ≠ "" →
       let st' := fetchReposAndYears st in
       ((showChart st' = true ∧ error st' = ""
         ∧ length (commitData st') = 12%nat)
        ∨ (showChart st' = false ∧ commitData st' = []))
       ∧ (chartView st' ≠ Hidden → errorBanner st' = None)).
Proof.
  assert (Hrun : ∀ year customRepos st,
            customRepos ≠ [] →
            (showChart (fetchCommits year customRepos st) = true
             ∧ error (fetchCommits year customRepos st) = ""
             ∧ length (commitData (fetchCommits year customRepos st)) = 12%nat)
            ∨ (showChart (fetchCommits year customRepos st) = false
               ∧ commitData (fetchCommits year customRepos st) = [])).
  { intros year customRepos st Hne.
    destruct (fetchCommits_outcome year customRepos st Hne)
      as (_ & [Hchart | (Hsc & _ & Hcd & _)]); [left | right]; tauto. }
  split; [exact Hrun|].
  intros st Hname st'.
  assert (Hways : (showChart st' = true ∧ error st' = ""
                   ∧ length (commitData st') = 12%nat)
                  ∨ (showChart st' = false ∧ commitData st' = [])).
  { subst st'.
    destruct (search_outcome st Hname)
      as [(e & st1 & new & -> & _ & _ & _ & _ & _ & Hcd & Hsc)
         | [(st1 & -> & _ & _ & _ & _ & Hcd & Hsc)
           | (cy & rd & st1 & -> & Hne & _)]].
    - right. split; assumption.
    - right. split; assumption.
    - apply Hrun, Hne. }
  split; [exact Hways|].
  intros Hview. unfold errorBanner.
  destruct Hways as [(_ & -> & _) | (Hsc & _)]; [reflexivity|].
  exfalso. apply Hview. unfold chartView. rewrite Hsc, andb_false_r.
  reflexivity.
Qed.

(** X7: a run of the aggregation issues at most five requests for each of
    the repositories it processes, so at most 125 whatever the list; and a
    run over a list that is not empty which ends without an error has
    issued at least one request for each of them. *)
Theorem X7_request_budget year customRepos st :
  let st' := fetchCommits year customRepos st in
  ∃ new,
    requests st' = requests st ++ new
    ∧ (length new <= 5 * Nat.min 25 (length customRepos))%nat
    ∧ (length new <= 125)%nat
    ∧ (customRepos ≠ [] → error st' = "" →
       Nat.min 25 (length customRepos) <= length new)%nat.
Proof.
  intros st'. subst st'.
  destruct (fetchCommits_requests year customRepos st)
    as (new & Hr & _ & Hmax & Hmin & _).
  rewrite length_take in Hmax, Hmin.
  exists new. split; [exact Hr|]. split; [exact Hmax|]. split; [lia|].
  intros Hne He. apply Hmin; assumption.
Qed.

(** X11: a run over a list of repositories that is not empty, for a year
    of which the first or the last instant is not a valid date, issues no
    request and writes nothing on the console: it ends with the message
    "Invalid time value" in the error banner, no commit data and no
    chart. *)
Theorem X11_invalid_year year customRepos st :
  customRepos ≠ [] →
  dateLocal year 0 1 0 0 0 = None ∨ dateLocal year 11 31 23 59 59 = None →
  let st' := fetchCommits year customRepos st in
  errorBanner st' = Some "Invalid time value"
  ∧ requests st' = requests st ∧ console st' = console st
  ∧ commitData st' = [] ∧ showChart st' = false ∧ loading st' = false
  ∧ chartView st' = Hidden.
Proof.
  intros Hne Hdate st'. subst st'.
  assert (Hw : dateWindow year (clock (requests st))
                 (getFullYear (clock (requests st))) = inl rangeError).
  { unfold dateWindow. destruct Hdate as [-> | Hlast]; [reflexivity|].
    rewrite Hlast. destruct (dateLocal year 0 1 0 0 0); reflexivity. }
  rewrite (fetchCommits_invalid _ _ _ _ Hne Hw).
  unfold chartView, errorBanner. cbn. rewrite andb_false_r.
  repeat split.
Qed.

(** X12: a change of year always leaves the year asked for as the chosen
    one, and keeps the user name, the repositories and the years offered;
    the commit data it leaves are those of the aggregation for that year
    over the repositories of the state; with no repository it changes
    nothing else, so that the commit data of an earlier year stay. *)
Theorem X12_year_change year st :
  let st' := handleYearChange year st in
  selectedYear st' = Some year
  ∧ username st' = username st ∧ repos st' = repos st
  ∧ years st' = years st
  ∧ commitData st' = commitData (fetchCommits year (repos st) st)
  ∧ (repos st = [] → st' = setSelectedYear (Some year) st)
  ∧ (∀ selector, yearSelector st' = Some selector →
       chosen selector = Some year ∧ offered selector = years st).
Proof.
  intros st'. subst st'. unfold handleYearChange.
  destruct (fetchCommits_kept year (repos st) (setSelectedYear (Some year) st))
    as (Hu & Hr & Hy & Hs).
  cbn [username repos years selectedYear setSelectedYear] in Hu, Hr, Hy, Hs.
  split; [assumption|]. split; [assumption|]. split; [assumption|].
  split; [assumption|]. split; [| split].
  - destruct (repos st) as [|repo rest] eqn:Hrepos; [reflexivity|].
    apply sameWorld_fetchCommits; [discriminate | split; reflexivity].
  - intros ->. reflexivity.
  - intros selector. unfold yearSelector. rewrite Hy, Hs.
    destruct (0 <? length (years st))%nat; [|discriminate].
    intros [= <-]. split; reflexivity.
Qed.

End Flags.

(** ** The search *)

Section Search.

Context `{Env}.

Implicit Types (st : State).

(** The state in which a search whose two setup requests succeeded calls
    the aggregation. *)
Lemma search_success st status userData status' reposData :
  username st ≠ "" →
  httpUser (requests st) (GetUser (username st))
    = Responded status (inr userData) →
  ok status = true →
  httpRepos (requests st ++ [GetUser (username st)])
            (GetRepos (username st) 100)
    = Responded status' (inr reposData) →
  ok status' = true →
  reposData ≠ [] →
  let currentYear :=
    getFullYear (clock (requests st ++ [GetUser (username st)])) in
  fetchReposAndYears st
  = fetchCommits currentYear reposData
      (setRepos reposData
         (issue (GetRepos (username st) 100)
            (setSelectedYear (Some currentYear)
               (setYears
                  (yearRange (getFullYear <$> dateParse (created_at userData))
                             currentYear)
                  (issue (GetUser (username st)) (cleared st)))))).
Proof.
  intros Hname Huser Hok Hrepos Hok' Hne currentYear. subst currentYear.
  unfold fetchReposAndYears, setup, fetchWithAuth.
  rewrite bool_decide_eq_false_2 by assumption. fold (cleared st).
  change (requests (cleared st)) with (requests st).
  change (username (cleared st)) with (username st).
  rewrite Huser, Hok.
  cbn [negb requests username setSelectedYear setYears issue cleared
       setShowChart setRepos setCommitData setError setLoading].
  rewrite Hrepos, Hok'.
  destruct reposData as [|repo rest]; [contradiction|]. reflexivity.
Qed.

(** The cells after such a search, and how its aggregation ended. *)
Lemma search_ran st status userData status' reposData :
  username st ≠ "" →
  httpUser (requests st) (GetUser (username st))
    = Responded status (inr userData) →
  ok status = true →
  httpRepos (requests st ++ [GetUser (username st)])
            (GetRepos (username st) 100)
    = Responded status' (inr reposData) →
  ok status' = true →
  reposData ≠ [] →
  let currentYear :=
    getFullYear (clock (requests st ++ [GetUser (username st)])) in
  let st' := fetchReposAndYears st in
  repos st' = reposData
  ∧ years st'
    = yearRange (getFullYear <$> dateParse (created_at userData)) currentYear
  ∧ selectedYear st' = Some currentYear
  ∧ loading st' = false
  ∧ ((showChart st' = true ∧ error st' = ""
      ∧ length (commitData st') = 12%nat)
     ∨ (showChart st' = false ∧ error st' = "Invalid time value"
        ∧ commitData st' = [])).
Proof.
  intros Hname Huser Hok Hrepos Hok' Hne currentYear st'. subst st'.
  rewrite (search_success st status userData status' reposData) by assumption.
  fold currentYear. set (st1 := setRepos reposData _).
  destruct (fetchCommits_kept currentYear reposData st1)
    as (_ & Hr & Hy & Hs).
  cbn in Hr, Hy, Hs.
  split; [assumption|]. split; [assumption|]. split; [assumption|].
  destruct (fetchCommits_outcome currentYear reposData st1 Hne)
    as (Hl & [Hchart | (Hsc & He & Hcd & _)]);
    (split; [exact Hl|]); [left | right]; tauto.
Qed.

(** X2: when the profile and the list of repositories are both fetched
    with success and the list is not empty, the search ends with the
    repositories as they were returned, the years from the creation of the
    account to the current year on offer, the current year chosen, and the
    commit data of the aggregation for the current year; it has issued the
    two setup requests, then page requests only.  When the account was
    created in the current year or before, the selector is shown, with the
    current year first and the year of creation last. *)
Theorem X2_search_success st status userData status' reposData :
  username st ≠ "" →
  httpUser (requests st) (GetUser (username st))
    = Responded status (inr userData) →
  ok status = true →
  httpRepos (requests st ++ [GetUser (username st)])
            (GetRepos (username st) 100)
    = Responded status' (inr reposData) →
  ok status' = true →
  reposData ≠ [] →
  let u := username st in
  let currentYear := getFullYear (clock (requests st ++ [GetUser u])) in
  let createdYear := getFullYear <$> dateParse (created_at userData) in
  let st' := fetchReposAndYears st in
  repos st' = reposData
  ∧ years st' = yearRange createdYear currentYear
  ∧ selectedYear st' = Some currentYear
  ∧ commitData st'
    = commitData (fetchCommits currentYear reposData
                    (issue (GetRepos u 100) (issue (GetUser u) st)))
  ∧ (∃ new,
       requests st' = requests st ++ [GetUser u; GetRepos u 100] ++ new
       ∧ ∀ url, url ∈ new → isCommitsRequest url = true)
  ∧ (∀ created,
       createdYear = Some created → created <= currentYear →
       ∃ selector,
         yearSelector st' = Some selector
         ∧ chosen selector = Some currentYear
         ∧ head (offered selector) = Some currentYear
         ∧ last (offered selector) = Some created).
Proof.
  intros Hname Huser Hok Hrepos Hok' Hne u currentYear createdYear st'.
  subst st'.
  rewrite (search_success st status userData status' reposData) by assumption.
  fold u currentYear createdYear.
  set (st1 := setRepos reposData _).
  destruct (fetchCommits_kept currentYear reposData st1)
    as (_ & Hr & Hy & Hs).
  cbn in Hr, Hy, Hs.
  split; [assumption|]. split; [assumption|]. split; [assumption|].
  split; [| split].
  - apply sameWorld_fetchCommits; [assumption | split; reflexivity].
  - destruct (fetchCommits_requests currentYear reposData st1)
      as (new & Hreq & _ & _ & _ & Hnew).
    exists new. split; [| intros url Hurl; apply Hnew, Hurl].
    rewrite Hreq. cbn. rewrite <- !app_assoc. reflexivity.
  - intros created Hcreated Hle. unfold yearSelector.
    rewrite Hy, Hs, Hcreated.
    destruct (yearRange_ends created currentYear) as (Hfirst & Hlast & Hlen).
    destruct (yearRange (Some created) currentYear) as [|y ys] eqn:Hyears.
    { simpl in Hlen. lia. }
    eexists. split; [reflexivity|]. cbn [chosen offered].
    split; [reflexivity|]. split.
    + specialize (Hfirst Hle). simpl in Hfirst |- *. congruence.
    + exact (Hlast Hle).
Qed.

(** X3: when the two setup requests succeed and the list of repositories
    is not empty, but the creation date of the account does not parse, or
    lies in a later year than the current one, no year is offered: the
    aggregation still runs for the current year, and when it ends without
    an error its 12 buckets are in the state with the chart flag up, yet
    neither the year selector nor the chart is displayed. *)
Theorem X3_no_year_no_chart st status userData status' reposData :
  username st ≠ "" →
  httpUser (requests st) (GetUser (username st))
    = Responded status (inr userData) →
  ok status = true →
  httpRepos (requests st ++ [GetUser (username st)])
            (GetRepos (username st) 100)
    = Responded status' (inr reposData) →
  ok status' = true →
  reposData ≠ [] →
  (dateParse (created_at userData) = None
   ∨ ∃ created,
       dateParse (created_at userData) = Some created
       ∧ getFullYear (clock (requests st ++ [GetUser (username st)]))
         < getFullYear created) →
  let st' := fetchReposAndYears st in
  years st' = []
  ∧ yearSelector st' = None
  ∧ chartView st' = Hidden
  ∧ repos st' = reposData
  ∧ selectedYear st'
    = Some (getFullYear (clock (requests st ++ [GetUser (username st)])))
  ∧ (error st' = "" →
     showChart st' = true ∧ length (commitData st') = 12%nat).
Proof.
  intros Hname Huser Hok Hrepos Hok' Hne Hcreated st'.
  destruct (search_ran st status userData status' reposData
              Hname Huser Hok Hrepos Hok' Hne) as (Hr & Hy & Hs & Hrun).
  fold st' in Hr, Hy, Hs, Hrun.
  assert (Hnone : years st' = []).
  { rewrite Hy. destruct Hcreated as [-> | (created & -> & Hlater)];
      [reflexivity|].
    change (getFullYear <$> Some created) with (Some (getFullYear created)).
    apply length_zero_iff_nil. rewrite yearRange_length. lia. }
  split; [exact Hnone|].
  split; [unfold yearSelector; rewrite Hnone; reflexivity|].
  split; [unfold chartView; rewrite Hnone; reflexivity|].
  split; [exact Hr | split; [exact Hs|]].
  intros He. destruct Hrun as (_ & [Hchart | (_ & Herr & _)]); [tauto|].
  rewrite He in Herr. discriminate.
Qed.

(** X6: typing a user name and pressing Enter issues requests about that
    user only: none when the name is empty; else the request for the
    profile, alone or followed by the request for 100 repositories and
    then by page requests of 100 commits, 127 requests at most.  The
    requests and the console lines of before are kept, and any other key
    does nothing. *)
Theorem X6_requests_of_search name st :
  let st' := handleKeyDown "Enter" (setUsername name st) in
  (∃ new,
     requests st' = requests st ++ new
     ∧ (∃ lines, console st' = console st ++ lines)
     ∧ username st' = name
     ∧ (name = "" → new = [])
     ∧ (name ≠ "" →
        ∃ pages,
          (new = [GetUser name]
           ∨ new = [GetUser name; GetRepos name 100] ++ pages)
          ∧ ∀ url, url ∈ pages →
              isCommitsRequest url = true ∧ requestUser url = name
              ∧ requestPerPage url = Some 100%nat)
     ∧ (length new <= 127)%nat)
  ∧ ∀ key, key ≠ "Enter" → handleKeyDown key st = st.
Proof.
  intros st'. subst st'. split;
    [| intros key Hkey; unfold handleKeyDown;
       rewrite bool_decide_eq_false_2 by assumption; reflexivity].
  unfold handleKeyDown, handleSearch. cbn [bool_decide decide].
  rewrite bool_decide_eq_true_2 by reflexivity.
  set (st0 := setUsername name st).
  destruct (decide (name = "")) as [Hempty | Hname].
  { exists []. unfold fetchReposAndYears.
    rewrite bool_decide_eq_true_2 by exact Hempty. cbn.
    rewrite !app_nil_r. split; [reflexivity|].
    split; [exists []; rewrite app_nil_r; reflexivity|].
    split; [reflexivity | split; [reflexivity|]].
    split; [contradiction | lia]. }
  destruct (search_outcome st0 Hname)
    as [(e & st1 & new & -> & Hnew & Hreq & Hc & Hu & _)
       | [(st1 & -> & Hreq & Hc & Hu & _)
         | (cy & rd & st1 & -> & Hne & Hreq & Hc & Hu & _)]];
    cbn [username requests console setUsername] in *.
  - exists new. cbn. split; [exact Hreq | split; [exact Hc|]].
    split; [exact Hu | split; [contradiction|]]. split.
    + intros _. exists [].
      split; [exact Hnew | intros url []%elem_of_nil].
    + destruct Hnew as [-> | ->]; simpl; lia.
  - eexists. cbn. split; [exact Hreq|]. rewrite Hc.
    split; [exists []; rewrite app_nil_r; reflexivity|].
    split; [exact Hu | split; [contradiction|]]. split; [| simpl; lia].
    intros _. exists [].
    split; [right; reflexivity | intros url []%elem_of_nil].
  - destruct (fetchCommits_requests cy rd st1)
      as (pages & Hpages & Hlines & Hmax & _ & Hall).
    destruct (fetchCommits_kept cy rd st1) as (Hu' & _).
    rewrite Hreq, Hc, Hu in *.
    exists ([GetUser name; GetRepos name 100] ++ pages).
    split; [rewrite Hpages, <- app_assoc; reflexivity|].
    split; [exact Hlines | split; [rewrite Hu'; reflexivity|]].
    split; [contradiction|]. split.
    + intros _. exists pages. split; [right; reflexivity | exact Hall].
    + rewrite length_app, length_take in *. simpl. lia.
Qed.

(** X8: in a search with a user name, a request of the setup phase that
    is rejected, or whose body does not parse, ends the search with the
    message of what was thrown as the error, or "An error occurred" when
    it is not an [Error]; a rejection is logged once by [fetchWithAuth].
    No request follows, the commit data and the repositories are empty
    and the chart flag is down.  When it is the request for the
    repositories that fails, the years on offer and the year chosen are
    already set. *)
Theorem X8_setup_throws st :
  username st ≠ "" →
  let u := username st in
  let st' := fetchReposAndYears st in
  (∀ e,
     httpUser (requests st) (GetUser u) = Rejected e →
     error st' = messageOr "An error occurred" e
     ∧ console st' = console st ++ [ConsoleError "Error fetching data:" e]
     ∧ requests st' = requests st ++ [GetUser u]
     ∧ years st' = [] ∧ repos st' = [] ∧ commitData st' = []
     ∧ showChart st' = false ∧ loading st' = false)
  ∧ (∀ status e,
       httpUser (requests st) (GetUser u) = Responded status (inl e) →
       ok status = true →
       error st' = messageOr "An error occurred" e
       ∧ console st' = console st
       ∧ requests st' = requests st ++ [GetUser u]
       ∧ years st' = [] ∧ repos st' = [] ∧ commitData st' = []
       ∧ showChart st' = false ∧ loading st' = false)
  ∧ (∀ status userData answer e,
       httpUser (requests st) (GetUser u)
         = Responded status (inr userData) →
       ok status = true →
       httpRepos (requests st ++ [GetUser u]) (GetRepos u 100) = answer →
       answer = Rejected e
       ∨ (∃ status', answer = Responded status' (inl e) ∧ ok status' = true) →
       let currentYear := getFullYear (clock (requests st ++ [GetUser u])) in
       error st' = messageOr "An error occurred" e
       ∧ console st'
         = console st
           ++ (if answer is Rejected _
               then [ConsoleError "Error fetching data:" e] else [])
       ∧ requests st' = requests st ++ [GetUser u; GetRepos u 100]
       ∧ years st'
         = yearRange (getFullYear <$> dateParse (created_at userData))
                     currentYear
       ∧ selectedYear st' = Some currentYear
       ∧ repos st' = [] ∧ commitData st' = []
       ∧ showChart st' = false ∧ loading st' = false).
Proof.
  intros Hname u st'. subst u st'.
  unfold fetchReposAndYears, setup, fetchWithAuth.
  rewrite bool_decide_eq_false_2 by assumption.
  cbn [requests username setShowChart setYears setRepos setCommitData
       setError setLoading].
  split; [| split].
  - intros e ->. cbn. repeat split.
  - intros status e -> ->. cbn. repeat split.
  - intros status userData answer e -> -> Hanswer Hfail.
    cbn [requests username setShowChart setYears setRepos setCommitData
         setError setLoading setSelectedYear issue negb].
    rewrite Hanswer.
    destruct Hfail as [-> | (status' & -> & ->)]; cbn;
      rewrite <- ?app_assoc, ?app_nil_r; repeat split.
Qed.

Lemma sameWorld_fetchCommits_cells year customRepos st1 st2 :
  customRepos ≠ [] →
  sameWorld st1 st2 →
  let st1' := fetchCommits year customRepos st1 in
  let st2' := fetchCommits year customRepos st2 in
  requests st1' = requests st2' ∧ commitData st1' = commitData st2'
  ∧ loading st1' = loading st2' ∧ error st1' = error st2'
  ∧ showChart st1' = showChart st2'.
Proof.
  intros Hne Hs st1' st2'. subst st1' st2'.
  split; [| split; [apply sameWorld_fetchCommits; assumption|]].
  - unfold fetchCommits.
    destruct customRepos as [|repo rest]; [contradiction|].
    change (length (repo :: rest) =? 0)%nat with false. cbv iota.
    fold (entered st1). fold (entered st2).
    change (requests (entered st1)) with (requests st1).
    change (requests (entered st2)) with (requests st2).
    assert (Hs' : sameWorld (entered st1) (entered st2)) by exact Hs.
    destruct Hs as [_ Hr]. rewrite <- Hr.
    set (now := clock (requests st1)).
    destruct (sameWorld_forRepos year now (getFullYear now)
                (take 25 (repo :: rest)) (newMonthlyCommits year)
                _ _ Hs') as [Heq [_ Hreq]].
    destruct (forRepos _ _ _ _ _ (entered st1)) as [[e1|mc1] st1'],
             (forRepos _ _ _ _ _ (entered st2)) as [[e2|mc2] st2'];
      simpl in Heq; try discriminate; exact Hreq.
  - set (now1 := clock (requests st1)). set (now2 := clock (requests st2)).
    destruct (fetchCommits_outcome year customRepos st1 Hne)
      as (Hl1 & Hways1).
    destruct (fetchCommits_outcome year customRepos st2 Hne)
      as (Hl2 & Hways2).
    pose proof (sameWorld_fetchCommits year customRepos st1 st2 Hne Hs) as Hcd.
    split; [congruence|].
    destruct Hways1 as [(Hsc1 & He1 & Hlen1) | (Hsc1 & He1 & Hcd1 & _)],
             Hways2 as [(Hsc2 & He2 & Hlen2) | (Hsc2 & He2 & Hcd2 & _)];
      try (split; congruence).
    + rewrite Hcd, Hcd2 in Hlen1. discriminate.
    + rewrite <- Hcd, Hcd1 in Hlen2. discriminate.
Qed.

(** X13: a search forgets what the component held: two states with the
    same user name and the same requests behind them end a search with the
    same requests issued, the same seven cells other than the year chosen,
    and so the same error banner and the same chart; the year chosen is
    the same too whenever a year is on offer, so that the year selector is
    the same. *)
Theorem X13_search_forgets st1 st2 :
  username st1 ≠ "" →
  sameWorld st1 st2 →
  let st1' := fetchReposAndYears st1 in
  let st2' := fetchReposAndYears st2 in
  sameCells st1' st2'
  ∧ requests st1' = requests st2'
  ∧ (years st1' ≠ [] → selectedYear st1' = selectedYear st2')
  ∧ errorBanner st1' = errorBanner st2'
  ∧ chartView st1' = chartView st2'
  ∧ yearSelector st1' = yearSelector st2'.
Proof.
  intros Hname [Hu Hr] st1' st2'.
  assert (Hname2 : username st2 ≠ "") by (rewrite <- Hu; exact Hname).
  assert (Hmain : sameCells st1' st2' ∧ requests st1' = requests st2'
                  ∧ (years st1' ≠ [] → selectedYear st1' = selectedYear st2')).
  { subst st1' st2'.
    unfold fetchReposAndYears, setup, fetchWithAuth.
    rewrite !bool_decide_eq_false_2 by assumption.
    cells. rewrite <- Hu, <- Hr.
    destruct (httpUser _ _) as [e|status [e|userData]];
      [ | destruct (ok status) | destruct (ok status) ];
      cells; rewrite <- ?Hu, <- ?Hr;
      try (unfold sameCells; cbn; rewrite <- ?Hu, <- ?Hr;
           repeat split; congruence).
    destruct (httpRepos _ _) as [e|status' [e|reposData]];
      [ | destruct (ok status') | destruct (ok status') ];
      cells;
      try (unfold sameCells; cbn; rewrite <- ?Hu, <- ?Hr;
           repeat split; congruence).
    destruct reposData as [|repo rest]; cbn [length Nat.ltb Nat.leb];
      [unfold sameCells; cbn; rewrite <- ?Hu, <- ?Hr; repeat split|].
    match goal with
    | |- sameCells (fetchCommits ?y ?rs ?a) (fetchCommits _ _ ?b) ∧ _ =>
        destruct (sameWorld_fetchCommits_cells y rs a b)
          as (Hreq & Hcd & Hl & He & Hsc);
        [discriminate | split; cbn; congruence |];
        destruct (fetchCommits_kept y rs a) as (Hu1 & Hr1 & Hy1 & Hs1);
        destruct (fetchCommits_kept y rs b) as (Hu2 & Hr2 & Hy2 & Hs2)
    end.
    unfold sameCells.
    rewrite Hu1, Hu2, Hr1, Hr2, Hy1, Hy2, Hs1, Hs2. cells.
    repeat split; congruence. }
  destruct Hmain as (Hcells & Hreq & Hsel).
  split; [exact Hcells | split; [exact Hreq | split; [exact Hsel|]]].
  destruct Hcells as (_ & _ & Hcd & Hl & He & Hy & Hsc).
  split; [unfold errorBanner; rewrite He; reflexivity|].
  split; [unfold chartView; rewrite Hy, Hsc, Hcd; reflexivity|].
  unfold yearSelector. rewrite <- Hy, <- Hl.
  destruct (years st1') as [|y ys]; [reflexivity|].
  rewrite Hsel by discriminate. reflexivity.
Qed.

End Search.

(** ** What is counted *)

Section Counting.

Context `{Env}.

Implicit Types (mc : list CommitData) (cs : list Commit) (st : State).

Lemma tallied_nil mc : tallied mc [] mc.
Proof.
  split; [reflexivity | split; [simpl; lia|]].
  intros i [m n] ->. unfold authoredIn. simpl. do 2 f_equal. lia.
Qed.

Lemma tallied_app mc cs1 mc1 cs2 mc2 :
  tallied mc cs1 mc1 → tallied mc1 cs2 mc2 → tallied mc (cs1 ++ cs2) mc2.
Proof.
  intros (Hl1 & Ht1 & Hb1) (Hl2 & Ht2 & Hb2).
  split; [congruence | split; [rewrite length_app; lia|]].
  intros i d Hd. rewrite (Hb2 i _ (Hb1 i d Hd)). simpl.
  rewrite authoredIn_app. do 2 f_equal. lia.
Qed.

Lemma forEach_tallied cs mc mc' :
  forEach cs mc = (None, mc') → tallied mc cs mc'.
Proof.
  intros Hfe. destruct (forEach_counts _ _ _ Hfe) as [Ht Hb].
  split; [exact (forEach_length _ _ _ _ Hfe) | split; assumption].
Qed.

Lemma countCommit_inl c mc e :
  countCommit c mc = inl e → e = typeError ∧ countable (length mc) c = false.
Proof.
  intros Hc. split.
  - unfold countCommit in Hc. destruct (monthIndex c) as [i|];
      [destruct (mc !! i) |]; congruence.
  - destruct (countable (length mc) c) eqn:Hcount; [|reflexivity].
    apply countCommit_countable in Hcount as [mc' Hmc']. congruence.
Qed.

(** [forEach] counts the commits up to the first that is not countable,
    and throws at that one. *)
Lemma forEach_prefix cs mc r mc' :
  forEach cs mc = (r, mc') →
  ∃ counted rest,
    cs = counted ++ rest
    ∧ forEach counted mc = (None, mc')
    ∧ match r with
      | None => rest = []
      | Some e =>
          e = typeError
          ∧ ∃ bad rest', rest = bad :: rest'
                         ∧ countable (length mc) bad = false
      end.
Proof.
  revert mc. induction cs as [|c cs IH]; intros mc; simpl.
  - intros [= <- <-]. exists [], []. repeat split.
  - destruct (countCommit c mc) as [e|mc1] eqn:Hc.
    + intros [= <- <-]. exists [], (c :: cs).
      apply countCommit_inl in Hc as [-> Hbad].
      split; [reflexivity | split; [reflexivity|]].
      split; [reflexivity | eauto].
    + intros (counted & rest & -> & Hfe & Hr)%IH.
      exists (c :: counted), rest. split; [reflexivity|].
      split; [simpl; rewrite Hc; exact Hfe|].
      destruct r as [e|]; [|exact Hr].
      destruct Hr as (-> & bad & rest' & -> & Hbad).
      split; [reflexivity|]. exists bad, rest'. split; [reflexivity|].
      erewrite <- (length_map month), <- countCommit_months, length_map
        by eassumption.
      exact Hbad.
Qed.

Lemma authoredIn_sublist i cs1 cs2 :
  cs1 `sublist_of` cs2 → authoredIn i cs1 <= authoredIn i cs2.
Proof.
  induction 1 as [|c cs1 cs2 _ IH|c cs1 cs2 _ IH].
  - lia.
  - rewrite (authoredIn_cons i c cs1), (authoredIn_cons i c cs2). lia.
  - rewrite (authoredIn_cons i c cs2).
    pose proof (authoredIn_nonneg i [c]). lia.
Qed.

Lemma delivered_app trace urls1 urls2 :
  delivered trace (urls1 ++ urls2)
  = delivered trace urls1 ++ delivered (trace ++ urls1) urls2.
Proof.
  revert trace. induction urls1 as [|url urls1 IH]; intros trace; simpl.
  - rewrite app_nil_r. reflexivity.
  - rewrite IH, <- !app_assoc. reflexivity.
Qed.

(** An iteration counts commits of its page only, from the first on: all
    of them unless it throws. *)
Lemma iteration_delivery repo since until page mc st :
  let url := commitsUrl repo since until (username st) page in
  let it := iteration repo since until page mc st in
  ∃ counted,
    counted `sublist_of` pageItems (httpCommits (requests st) url)
    ∧ tallied mc counted (itBuckets it)
    ∧ (∀ page' has' mc' st',
         it = Next page' has' mc' st' →
         counted = pageItems (httpCommits (requests st) url)).
Proof.
  intros url it. subst url it. unfold iteration, fetchWithAuth.
  destruct (httpCommits _ _) as [e|status [e|cs]]; simpl;
    [ | destruct (ok status); [ | destruct (_ || _) ]
      | destruct (ok status) eqn:Hok;
        [ destruct (forEach cs mc) as [r mc'] eqn:Hfe
        | destruct (_ || _) ] ];
    simpl;
    try (exists []; split; [constructor | split; [apply tallied_nil|]];
         intros; reflexivity).
  destruct (forEach_prefix _ _ _ _ Hfe) as (counted & rest & -> & Hfe' & Hr).
  exists counted. destruct r as [e|]; simpl.
  - split; [apply sublist_inserts_r; reflexivity|].
    split; [apply forEach_tallied, Hfe' | discriminate].
  - subst rest. rewrite app_nil_r.
    split; [reflexivity | split; [apply forEach_tallied, Hfe'|]].
    intros. reflexivity.
Qed.

(** The loop over the pages of a repository counts what its requests were
    delivered, page after page: all of it unless it throws. *)
Lemma whileLoop_delivery repo since until page has mc st :
  let res := whileLoop repo since until page has mc st in
  ∃ new counted,
    requests res.2 = requests st ++ new
    ∧ counted `sublist_of` delivered (requests st) new
    ∧ tallied mc counted res.1.2
    ∧ (res.1.1 = None → counted = delivered (requests st) new).
Proof.
  cbv zeta. pattern page, has, mc, st, (whileLoop repo since until page has mc st).
  apply whileLoop_induction; clear page has mc st.
  - intros page mc st. exists [], []. simpl. rewrite app_nil_r.
    split; [reflexivity | split; [constructor|]].
    split; [apply tallied_nil | reflexivity].
  - intros page mc st e mc' st' Hit.
    destruct (iteration_delivery repo since until page mc st)
      as (counted & Hsub & Htal & _).
    pose proof (iteration_advanced repo since until page mc st) as Hadv.
    rewrite Hit in Htal, Hadv. simpl in Htal, Hadv.
    eexists [_], counted. simpl. rewrite app_nil_r.
    split; [apply Hadv | split; [exact Hsub|]].
    split; [exact Htal | discriminate].
  - intros page mc st page' has' mc1 st1 Hit
           (new & counted' & Hreq & Hsub' & Htal' & Hall').
    destruct (iteration_delivery repo since until page mc st)
      as (counted & Hsub & Htal & Hall).
    pose proof (iteration_advanced repo since until page mc st) as Hadv.
    rewrite Hit in Htal, Hadv. simpl in Htal, Hadv.
    specialize (Hall _ _ _ _ Hit).
    assert (Hr : requests st1
                 = requests st ++ [commitsUrl repo since until (username st)
                                     page]) by apply Hadv.
    rewrite Hr in Hreq, Hsub', Hall'.
    eexists (_ :: new), (counted ++ counted'). simpl.
    split; [rewrite Hreq, <- app_assoc; reflexivity|].
    split; [apply sublist_app; assumption|].
    split; [eapply tallied_app; eassumption|].
    intros Hnone. rewrite (Hall' Hnone), Hall. reflexivity.
Qed.

Lemma noErrorLogged_app lines1 lines2 :
  noErrorLogged (lines1 ++ lines2)
  = noErrorLogged lines1 && noErrorLogged lines2.
Proof. apply forallb_app. Qed.

(** The same for a repository, where a throw leaves a line on the
    console. *)
Lemma processRepo_delivery repo since until mc st :
  let res := processRepo repo since until mc st in
  ∃ new lines counted,
    requests res.2 = requests st ++ new
    ∧ console res.2 = console st ++ lines
    ∧ counted `sublist_of` delivered (requests st) new
    ∧ tallied mc counted res.1
    ∧ (noErrorLogged lines = true → counted = delivered (requests st) new).
Proof.
  cbv zeta.
  destruct (whileLoop_delivery repo since until 1 true mc st)
    as (new & counted & Hreq & Hsub & Htal & Hall).
  destruct (whileLoop_spec repo since until 1 true mc st)
    as (k & Hadv & _).
  destruct Hadv as (_ & [lines Hc] & _).
  unfold processRepo.
  destruct (whileLoop repo since until 1 true mc st) as [[[e|] mc'] st'];
    simpl in *.
  - exists new, (lines ++ [ConsoleError ("Error processing repo "
                                          +:+ name repo +:+ ":") e]), counted.
    split; [exact Hreq|]. rewrite Hc, app_assoc.
    split; [reflexivity | split; [exact Hsub | split; [exact Htal|]]].
    rewrite noErrorLogged_app, andb_comm. discriminate.
  - exists new, lines, counted.
    split; [exact Hreq | split; [exact Hc | split; [exact Hsub|]]].
    split; [exact Htal | intros _; apply Hall; reflexivity].
Qed.

Lemma forRepos_delivery year now currentYear since until rs :
  dateWindow year now currentYear = inr (since, until) →
  ∀ mc st,
  ∃ mc' st' new lines counted,
    forRepos year now currentYear rs mc st = (inr mc', st')
    ∧ requests st' = requests st ++ new
    ∧ console st' = console st ++ lines
    ∧ counted `sublist_of` delivered (requests st) new
    ∧ tallied mc counted mc'
    ∧ (noErrorLogged lines = true → counted = delivered (requests st) new).
Proof.
  intros Hw. induction rs as [|repo rs IH]; intros mc st.
  - exists mc, st, [], [], []. simpl. rewrite !app_nil_r.
    split; [reflexivity | split; [reflexivity | split; [reflexivity|]]].
    split; [constructor | split; [apply tallied_nil | reflexivity]].
  - simpl. rewrite Hw.
    destruct (processRepo_delivery repo since until mc st)
      as (new1 & lines1 & counted1 & Hreq1 & Hc1 & Hsub1 & Htal1 & Hall1).
    destruct (processRepo repo since until mc st) as [mc1 st1]. simpl in *.
    destruct (IH mc1 st1)
      as (mc' & st' & new2 & lines2 & counted2 & -> & Hreq2 & Hc2 & Hsub2
          & Htal2 & Hall2).
    rewrite Hreq1 in Hreq2, Hsub2, Hall2. rewrite Hc1 in Hc2.
    exists mc', st', (new1 ++ new2), (lines1 ++ lines2),
      (counted1 ++ counted2).
    split; [reflexivity|].
    split; [rewrite Hreq2, app_assoc; reflexivity|].
    split; [rewrite Hc2, app_assoc; reflexivity|].
    rewrite delivered_app.
    split; [apply sublist_app; assumption|].
    split; [eapply tallied_app; eassumption|].
    rewrite noErrorLogged_app, andb_true_iff. intros [Hn1 Hn2].
    rewrite (Hall1 Hn1), (Hall2 Hn2). reflexivity.
Qed.

(** X14: the buckets a run ends with count commits that the API delivered
    to the requests of the run, and count none twice: they tally a
    subsequence of the commits delivered, page after page, each in the
    bucket of the month of its date, so that the total is the number of
    commits counted and no bucket exceeds what was delivered for its
    month.  When the run has logged no error, every commit delivered is
    counted. *)
Theorem X14_counts_what_is_delivered year customRepos st since until :
  customRepos ≠ [] →
  dateWindow year (clock (requests st)) (getFullYear (clock (requests st)))
    = inr (since, until) →
  let st' := fetchCommits year customRepos st in
  ∃ new lines counted,
    requests st' = requests st ++ new
    ∧ console st' = console st ++ lines
    ∧ counted `sublist_of` delivered (requests st) new
    ∧ totalCommits (commitData st') = Z.of_nat (length counted)
    ∧ (∀ i d, commitData st' !! i = Some d →
         commits d = authoredIn i counted
         ∧ commits d <= authoredIn i (delivered (requests st) new))
    ∧ (noErrorLogged lines = true → counted = delivered (requests st) new).
Proof.
  intros Hne Hw st'. subst st'. unfold fetchCommits.
  destruct customRepos as [|repo rest]; [contradiction|].
  change (length (repo :: rest) =? 0)%nat with false. cbv iota.
  fold (entered st). change (requests (entered st)) with (requests st).
  destruct (forRepos_delivery year _ _ since until (take 25 (repo :: rest))
              Hw (newMonthlyCommits year) (entered st))
    as (mc' & st' & new & lines & counted & Hrun & Hreq & Hc & Hsub
        & (Hlen & Htot & Hb) & Hall).
  change (requests (entered st)) with (requests st) in Hreq, Hsub, Hall.
  change (console (entered st)) with (console st) in Hc.
  rewrite Hrun. cells. exists new, lines, counted.
  split; [exact Hreq | split; [exact Hc | split; [exact Hsub|]]].
  split; [| split; [| exact Hall]].
  - rewrite Htot, (totalCommits_zero _ (newMonthlyCommits_zero year)). lia.
  - intros i d Hd.
    destruct (newMonthlyCommits year !! i) as [d0|] eqn:Hd0.
    + rewrite (Hb i d0 Hd0) in Hd. injection Hd as <-. simpl.
      assert (Hzero : commits d0 = 0).
      { exact (proj1 (Forall_forall _ _) (newMonthlyCommits_zero year) d0
                 (list_elem_of_lookup_2 _ _ _ Hd0)). }
      rewrite Hzero. split; [lia|].
      pose proof (authoredIn_sublist i _ _ Hsub). lia.
    + apply lookup_ge_None in Hd0. apply lookup_lt_Some in Hd. lia.
Qed.


End Counting.

(** ** The figures under the chart *)

Lemma commits_le_total (data : list CommitData) (d : CommitData) :
  nonNegative data → d ∈ data → commits d <= totalCommits data.
Proof.
  unfold nonNegative. induction 1 as [|x data Hx Hdata IH].
  - intros []%elem_of_nil.
  - rewrite totalCommits_cons.
    assert (0 <= totalCommits data).
    { clear IH. induction Hdata as [|y data Hy _ IH];
        [reflexivity | rewrite totalCommits_cons; lia]. }
    intros [-> | Hd]%elem_of_cons; [lia|]. specialize (IH Hd). lia.
Qed.

(** X10: when the chart is displayed over counts that are not negative,
    the total shown is the sum of the buckets and is at least 1, and the
    most active month is the label of a bucket that holds at least one
    commit, at most the total, and no fewer than any other bucket. *)
Theorem X10_chart_figures st data total label :
  chartView st = Chart data total label →
  nonNegative (commitData st) →
  data = commitData st
  ∧ total = totalCommits data
  ∧ 1 <= total
  ∧ ∃ d, d ∈ data ∧ month d = label
         ∧ 1 <= commits d <= total
         ∧ ∀ d', d' ∈ data → commits d' <= commits d.
Proof.
  unfold chartView.
  destruct (_ && _); [|discriminate].
  destruct (noCommits (commitData st)) eqn:Hsome; [discriminate|].
  apply noCommits_false in Hsome as (d0 & Hd0 & Hnz).
  unfold mostActive.
  destruct (commitData st) as [|first others] eqn:Hdata; [discriminate|].
  intros [= <- <- <-] Hpos.
  pose proof (reduce_max (first :: others) first) as Hmax.
  cbv zeta in Hmax.
  set (best := fold_left _ (first :: others) first) in *.
  assert (Hbest : best ∈ first :: others
                  ∧ ∀ d', d' ∈ first :: others → commits d' <= commits best).
  { destruct Hmax as [[-> Hall] | (i & Hi & _ & Hall & _)].
    - split; [left | exact Hall].
    - split; [eapply list_elem_of_lookup_2, Hi|].
      intros d' (j & Hj)%list_elem_of_lookup. eapply Hall, Hj. }
  destruct Hbest as [Hin Hall].
  assert (H0 : 0 <= commits d0)
    by exact (proj1 (Forall_forall _ _) Hpos d0 Hd0).
  pose proof (Hall d0 Hd0) as Hge.
  pose proof (commits_le_total _ _ Hpos Hin) as Hle.
  split; [reflexivity | split; [reflexivity | split; [lia|]]].
  exists best. split; [exact Hin | split; [reflexivity|]].
  split; [lia | exact Hall].
Qed.

(** * The properties on the scenarios *)

Section Scenarios.

Import Scenario.

Local Abbreviation page := (commitsUrl hello jan2024 noon "octocat").

(** A search on the account with two repositories: the setup requests, one
    page for "gone" and three for "hello", and the chart of 230 commits. *)
Example search_requests :
  requests (@fetchReposAndYears accountEnv start)
  = [GetUser "octocat"; GetRepos "octocat" 100;
     commitsUrl gone jan2024 noon "octocat" 1;
     page 1%nat; page 2%nat; page 3%nat].
Proof. vm_compute. reflexivity. Qed.

Example search_result :
  map commits (commitData (@fetchReposAndYears accountEnv start))
  = [0; 0; 130; 0; 0; 0; 100; 0; 0; 0; 0; 0]
  ∧ years (@fetchReposAndYears accountEnv start)
    = [2024; 2023; 2022; 2021; 2020]
  ∧ error (@fetchReposAndYears accountEnv start) = ""
  ∧ console (@fetchReposAndYears accountEnv start) = []
  ∧ ∃ data,
      chartView (@fetchReposAndYears accountEnv start) = Chart data 230 "Mar".
Proof.
  repeat split; try (vm_compute; reflexivity).
  eexists. vm_compute. reflexivity.
Qed.

(** A year beyond the range of [Date]: the outer [catch] of [fetchCommits]. *)
Example invalid_year :
  error (@fetchCommits quietEnv 300000 [hello] start) = "Invalid time value"
  ∧ commitData (@fetchCommits quietEnv 300000 [hello] start) = []
  ∧ requests (@fetchCommits quietEnv 300000 [hello] start) = [].
Proof. repeat split; vm_compute; reflexivity. Qed.

(** A change of year to 2023, a past year: the window is not clamped. *)
Example year_2023 :
  requests (@handleYearChange quietEnv 2023 (setRepos [hello] start))
  = [GetCommits "octocat" "hello" 1672531200000 1704067199000 100 1].
Proof. vm_compute. reflexivity. Qed.

Lemma endless_honoursPerPage : @honoursPerPage endlessEnv.
Proof.
  intros trace username repo since until per_page page status commits Heq.
  injection Heq as _ <-. rewrite repeat_length. lia.
Qed.

(** C1, against "pagination stops exactly when a page holds fewer than
    100 items": when every page is full the run stops after page 5, and
    page 5 did not hold fewer than 100 commits. *)
Lemma C1_counterexample :
  requests (@fetchCommits endlessEnv 2024 [hello] start)
  = map page [1; 2; 3; 4; 5]%nat
  ∧ ∃ items,
      @httpCommits endlessEnv (map page [1; 2; 3; 4]%nat) (page 5%nat)
      = Responded 200 (inr items)
      ∧ ¬ (length items < 100)%nat.
Proof.
  split; [vm_compute; reflexivity|].
  exists (repeat march 100). split; [reflexivity|].
  rewrite repeat_length. lia.
Qed.

(** C1 on the repository with pages of 100, 100 and 30 commits. *)
Lemma C1_witness :
  requests (@processRepo threePagesEnv hello jan2024 noon buckets2024 start).2
  = requests start ++ [page 1%nat; page 2%nat; page 3%nat]
  ∧ totalCommits
      (@processRepo threePagesEnv hello jan2024 noon buckets2024 start).1
    = totalCommits buckets2024 + 230.
Proof.
  destruct (proj2 (@C1_pagination threePagesEnv hello jan2024 noon
                     buckets2024 start)
              200 200 200 (repeat march 100) (repeat july 100)
              (repeat march 30))
    as (Hr & _ & Ht & _);
    [reflexivity | reflexivity | reflexivity | reflexivity | reflexivity
    | reflexivity | reflexivity | reflexivity | reflexivity
    | vm_compute; reflexivity |].
  split; [exact Hr | exact Ht].
Defined.

(** C2 on a run over "gone", whose first page is a 404, then "hello". *)
Lemma C2_witness :
  @processRepo mixedEnv gone jan2024 noon buckets2024 start
  = (buckets2024, issue (commitsUrl gone jan2024 noon "octocat" 1) start)
  ∧ showChart (@fetchCommits mixedEnv 2024 [gone; hello] start) = true
  ∧ error (@fetchCommits mixedEnv 2024 [gone; hello] start) = ""
  ∧ length (commitData (@fetchCommits mixedEnv 2024 [gone; hello] start))
    = 12%nat.
Proof.
  destruct (@C2_failure_isolation mixedEnv) as (_ & _ & _ & _ & Hrun & Hgone).
  split.
  - exact (Hgone gone jan2024 noon buckets2024 start (inl NonError) eq_refl).
  - apply (Hrun 2024 [gone; hello] start jan2024 noon);
      [discriminate | vm_compute; reflexivity].
Defined.

(** C3, against "an empty list yields 12 zero buckets and no error": with
    no repository the aggregation leaves the commit data as it was, here
    empty, and not 12 buckets; and a search on an account without
    repositories does report an error. *)
Lemma C3_counterexample :
  commitData (@fetchCommits quietEnv 2024 [] start) = []
  ∧ length (commitData (@fetchCommits quietEnv 2024 [] start)) ≠ 12%nat
  ∧ errorBanner (@fetchReposAndYears emptyAccountEnv start)
    = Some "No repositories found for this user".
Proof.
  split; [reflexivity|]. split; [discriminate | vm_compute; reflexivity].
Qed.

(** C3 on a search for an account without repositories. *)
Lemma C3_witness :
  error (@fetchReposAndYears emptyAccountEnv start)
  = "No repositories found for this user"
  ∧ commitData (@fetchReposAndYears emptyAccountEnv start) = []
  ∧ showChart (@fetchReposAndYears emptyAccountEnv start) = false
  ∧ loading (@fetchReposAndYears emptyAccountEnv start) = false
  ∧ requests (@fetchReposAndYears emptyAccountEnv start)
    = requests start ++ [GetUser "octocat"; GetRepos "octocat" 100].
Proof.
  apply (proj2 (@C3_empty_list emptyAccountEnv 2024 start)
           200 (mkUserData "2020-01-01T00:00:00Z") 200);
    [discriminate | reflexivity | reflexivity | reflexivity | reflexivity].
Defined.

(** C4, against "an upper bound in the future is always clamped to now":
    for a year after the current one it is not.  In June 2024 the window
    of 2025 ends in the future, and the request carries that end. *)
Lemma C4_counterexample :
  requests (@fetchCommits quietEnv 2025 [hello] start)
  = [GetCommits "octocat" "hello" jan2025 dec2025 100 1]
  ∧ Utc.dateLocal 2025 11 31 23 59 59 = Some dec2025
  ∧ @clock quietEnv (requests start) < dec2025
  ∧ dec2025 ≠ @clock quietEnv (requests start).
Proof.
  split; [vm_compute; reflexivity|]. split; [vm_compute; reflexivity|].
  split; [reflexivity | discriminate].
Qed.

(** C4 on a run for the current year, 2024. *)
Lemma C4_witness :
  ∃ new,
    requests (@fetchCommits quietEnv 2024 [hello] start)
    = requests start ++ new
    ∧ ∀ u, u ∈ new →
        ∃ (repoName : string) page since upper until,
          u = GetCommits (username start) repoName since until 100 page
          ∧ Utc.dateLocal 2024 0 1 0 0 0 = Some since
          ∧ Utc.dateLocal 2024 11 31 23 59 59 = Some upper
          ∧ until = (if (2024 =? Utc.getFullYear noon) && (noon <? upper)
                     then noon else upper)
          ∧ (2024 = Utc.getFullYear noon → noon < upper → until = noon)
          ∧ (2024 = Utc.getFullYear noon → until <= noon)
          ∧ (2024 ≠ Utc.getFullYear noon → until = upper).
Proof. exact (@C4_date_window quietEnv 2024 [hello] start). Defined.

(** C5 on a repository whose pages are all full. *)
Lemma C5_witness :
  requests (@processRepo endlessEnv hello jan2024 noon buckets2024 start).2
  = requests start ++ map page (seq 1 5)
  ∧ console (@processRepo endlessEnv hello jan2024 noon buckets2024 start).2
    = console start
  ∧ totalCommits
      (@processRepo endlessEnv hello jan2024 noon buckets2024 start).1
    = totalCommits buckets2024 + 500.
Proof.
  destruct (@C5_page_cap endlessEnv hello jan2024 noon buckets2024 start)
    as (_ & _ & Hfull).
  destruct Hfull as (_ & Hr & Hc & Ht).
  - intros j Hj.
    do 5 (destruct j as [|j]; [vm_compute; reflexivity|]). lia.
  - split; [exact Hr | split; [exact Hc | exact Ht]].
Defined.

(** C6 on thirty repositories. *)
Lemma C6_witness :
  @fetchCommits quietEnv 2024 thirty start
  = @fetchCommits quietEnv 2024 (take 25 thirty) start.
Proof. exact (proj1 (@C6_repository_cap quietEnv 2024 thirty start)). Defined.

(** C7 on one repository whose pages are all full. *)
Lemma C7_witness :
  totalCommits (commitData (@fetchCommits endlessEnv 2024 [hello] start))
  <= Z.of_nat (length (take 25 [hello])) * 5 * 100.
Proof.
  apply (@C7_sum_bound endlessEnv 2024 [hello] start);
    [exact endless_honoursPerPage | discriminate].
Defined.

(** C8 on the repository with three pages. *)
Lemma C8_witness :
  length (commitData (@fetchCommits threePagesEnv 2024 [hello] start))
  = 12%nat.
Proof.
  apply (@C8_result_shape threePagesEnv 2024 [hello] start jan2024 noon);
    [discriminate | vm_compute; reflexivity].
Defined.

(** C9 on a search for a user that does not exist. *)
Lemma C9_witness :
  error (@fetchReposAndYears quietEnv start) = "User not found"
  ∧ errorBanner (@fetchReposAndYears quietEnv start)
    = Some (error (@fetchReposAndYears quietEnv start))
  ∧ requests (@fetchReposAndYears quietEnv start)
    = requests start ++ [GetUser "octocat"]
  ∧ loading (@fetchReposAndYears quietEnv start) = false
  ∧ showChart (@fetchReposAndYears quietEnv start) = false
  ∧ commitData (@fetchReposAndYears quietEnv start) = [].
Proof.
  apply (proj1 (@C9_setup_errors quietEnv start ltac:(discriminate))
           404 (inl NonError));
    reflexivity.
Defined.

(** C10 on buckets where February and March are level: February is the
    month shown. *)
Lemma C10_witness :
  chartView tied = Chart (commitData tied) 13 "Feb"
  ∧ ∃ (i : nat) d,
      commitData tied !! i = Some d
      ∧ "Feb" = month d
      ∧ (∀ j d', commitData tied !! j = Some d' → commits d' <= commits d)
      ∧ (∀ j d', (j < i)%nat → commitData tied !! j = Some d' →
                 commits d' < commits d).
Proof.
  split; [reflexivity|].
  exact (C10_most_active tied (commitData tied) 13 "Feb" eq_refl).
Defined.

End Scenarios.

(** * The further properties on the scenarios *)

Section FurtherScenarios.

Import Scenario.

(** X2 on a search for the account with two repositories. *)
Lemma X2_witness :
  repos (@fetchReposAndYears accountEnv start) = [gone; hello]
  ∧ years (@fetchReposAndYears accountEnv start)
    = @yearRange (Some 2020) 2024
  ∧ selectedYear (@fetchReposAndYears accountEnv start) = Some 2024.
Proof.
  destruct (@X2_search_success accountEnv start 200
              (mkUserData "2020-01-01T00:00:00Z") 200 [gone; hello])
    as (Hr & Hy & Hs & _);
    [discriminate | reflexivity | reflexivity | reflexivity | reflexivity
    | discriminate |].
  split; [exact Hr | split; [exact Hy | exact Hs]].
Defined.

(** X3 on the same search when the creation date does not parse: the
    aggregation has run, and nothing of it is displayed. *)
Lemma X3_witness :
  years (@fetchReposAndYears undatedEnv start) = []
  ∧ chartView (@fetchReposAndYears undatedEnv start) = Hidden
  ∧ showChart (@fetchReposAndYears undatedEnv start) = true
  ∧ length (commitData (@fetchReposAndYears undatedEnv start)) = 12%nat.
Proof.
  destruct (@X3_no_year_no_chart undatedEnv start 200 (mkUserData "unknown")
              200 [gone; hello])
    as (Hy & _ & Hv & _ & _ & Hrun);
    [discriminate | reflexivity | reflexivity | reflexivity | reflexivity
    | discriminate | left; reflexivity |].
  split; [exact Hy | split; [exact Hv|]].
  apply Hrun. vm_compute. reflexivity.
Defined.

(** X4 on a search for a user that does not exist. *)
Lemma X4_witness : loading (@fetchReposAndYears quietEnv start) = false.
Proof.
  apply (proj1 (@X4_loading_ends quietEnv) start). discriminate.
Defined.

(** X5 on the search that ends with a chart: no error banner. *)
Lemma X5_witness : errorBanner (@fetchReposAndYears accountEnv tied) = None.
Proof.
  apply (proj2 (@X5_chart_or_error accountEnv) tied);
    [discriminate | vm_compute; discriminate].
Defined.

(** X6 on typing "octocat" and pressing Enter. *)
Lemma X6_witness :
  ∃ new,
    requests (@handleKeyDown accountEnv "Enter" (setUsername "octocat" start))
    = requests start ++ new
    ∧ (length new <= 127)%nat.
Proof.
  destruct (proj1 (@X6_requests_of_search accountEnv "octocat" start))
    as (new & Hreq & _ & _ & _ & _ & Hmax).
  exists new. split; [exact Hreq | exact Hmax].
Defined.

(** X7 on thirty repositories. *)
Lemma X7_witness :
  ∃ new,
    requests (@fetchCommits quietEnv 2024 thirty start) = requests start ++ new
    ∧ (length new <= 125)%nat
    ∧ (25 <= length new)%nat.
Proof.
  destruct (@X7_request_budget quietEnv 2024 thirty start)
    as (new & Hreq & _ & Hmax & Hmin).
  exists new. split; [exact Hreq | split; [exact Hmax|]].
  apply Hmin; [discriminate | vm_compute; reflexivity].
Defined.

(** X8 on a search without network. *)
Lemma X8_witness :
  error (@fetchReposAndYears offlineEnv start) = "Failed to fetch"
  ∧ console (@fetchReposAndYears offlineEnv start)
    = console start
      ++ [ConsoleError "Error fetching data:" (ErrorObj "Failed to fetch")]
  ∧ requests (@fetchReposAndYears offlineEnv start)
    = requests start ++ [GetUser "octocat"].
Proof.
  destruct (proj1 (@X8_setup_throws offlineEnv start ltac:(discriminate))
              (ErrorObj "Failed to fetch") eq_refl)
    as (He & Hc & Hr & _).
  split; [exact He | split; [exact Hc | exact Hr]].
Defined.


(** X10 on the buckets where February and March are level. *)
Lemma X10_witness :
  commitData tied = commitData tied
  ∧ 13 = totalCommits (commitData tied)
  ∧ 1 <= 13
  ∧ ∃ d, d ∈ commitData tied ∧ month d = "Feb"
         ∧ 1 <= commits d <= 13
         ∧ ∀ d', d' ∈ commitData tied → commits d' <= commits d.
Proof.
  apply (X10_chart_figures tied (commitData tied) 13 "Feb" eq_refl).
  repeat constructor; simpl; lia.
Defined.

(** X11 on a year beyond the range of [Date]. *)
Lemma X11_witness :
  errorBanner (@fetchCommits quietEnv 300000 [hello] start)
  = Some "Invalid time value"
  ∧ requests (@fetchCommits quietEnv 300000 [hello] start) = requests start.
Proof.
  destruct (@X11_invalid_year quietEnv 300000 [hello] start)
    as (He & Hr & _); [discriminate | left; vm_compute; reflexivity |].
  split; [exact He | exact Hr].
Defined.

(** X13 on a first search and on one after earlier results. *)
Lemma X13_witness :
  chartView (@fetchReposAndYears accountEnv start)
  = chartView (@fetchReposAndYears accountEnv tied)
  ∧ errorBanner (@fetchReposAndYears accountEnv start)
    = errorBanner (@fetchReposAndYears accountEnv tied).
Proof.
  destruct (@X13_search_forgets accountEnv start tied)
    as (_ & _ & _ & He & Hv & _);
    [discriminate | split; reflexivity |].
  split; [exact Hv | exact He].
Defined.

(** X14 on the repository with three pages. *)
Lemma X14_witness :
  ∃ new lines counted,
    requests (@fetchCommits threePagesEnv 2024 [hello] start)
    = requests start ++ new
    ∧ console (@fetchCommits threePagesEnv 2024 [hello] start)
      = console start ++ lines
    ∧ counted `sublist_of` @delivered threePagesEnv (requests start) new
    ∧ totalCommits (commitData (@fetchCommits threePagesEnv 2024 [hello] start))
      = Z.of_nat (length counted).
Proof.
  destruct (@X14_counts_what_is_delivered threePagesEnv 2024 [hello] start
              jan2024 noon)
    as (new & lines & counted & Hreq & Hc & Hsub & Htot & _);
    [discriminate | vm_compute; reflexivity |].
  exists new, lines, counted.
  split; [exact Hreq | split; [exact Hc | split; [exact Hsub | exact Htot]]].
Defined.

End FurtherScenarios.
